(** * Seatify: sun-exposure engine and seat allocator (backend/main.py)

    A shallow embedding of [backend/main.py] and the properties of its
    geometry utilities, exposure engine, seat allocator and lookup caches.

    Numbers.  A Python [float] is an IEEE binary64 value; every finite
    one is a rational, and the embedding carries them as elements of [Q]
    compared with [Qeq] (written [==]).

    - [normalize] is embedded with the binary64 rounding of each of its
      three operations: [Py.fl] rounds a rational to the nearest binary64
      value (ties to even, 53-bit significand, gradual underflow), and
      [Py.float_mod] is the float [%] of CPython.  Overflow to infinity
      is not modelled: [Py.fl] has no largest exponent.
    - Everywhere else [+], [-], [*], [/], [%], comparisons, [math.ceil]
      and [round] are the exact operations on [Q].  What is proved there
      is therefore stated so that it does not depend on the last digits
      of a sum or a product: guards, signs, zeros, counts, which
      accumulator a sample goes to, and the order of rounded shares.
    - The transcendental functions of the [math] module and the
      solar-position functions of [astral] are interfaces ([math.lib],
      [astral.sun]); the code is embedded over any implementation of
      them.

    Errors.  A division whose divisor is a variable goes through
    [Py.div], which raises [ZeroDivisionError] on zero, so that a result
    [Py.Ok] says that no division failed.  Two other exceptions of the
    source are outside the model: the [ValueError] of [math.sqrt] on a
    negative argument ([math.lib] has a total [sqrt]) and the
    [OverflowError] of [datetime] arithmetic ([datetime] is an unbounded
    count of microseconds).

    State.  The two module-level caches and the requests sent to the
    services are an explicit [state]; one call of [geocode_location] or
    [get_route] is one step on it. *)

From Stdlib Require Import QArith Qround Qabs Qpower ZArith List Lia Lqa Bool.
From Stdlib Require Import DecimalString DecimalPos DecimalZ Ascii String.
From stdpp Require Import gmap strings.
Import ListNotations.

(* ===================================================================== *)
(** ** Python numerics *)
(* ===================================================================== *)

Module Py.

(** Exceptions the embedded code can raise. *)
Inductive exn : Type :=
| ZeroDivisionError
| HTTPError.

(** A computation either returns a value or raises. *)
Inductive result (A : Type) : Type :=
| Ok (a : A)
| Raise (e : exn).
Arguments Ok {A} a.
Arguments Raise {A} e.

Definition bind {A B : Type} (m : result A) (k : A -> result B) : result B :=
  match m with
  | Ok a => k a
  | Raise e => Raise e
  end.

(** [for x in xs: acc = body(acc, x)] where the body may raise. *)
Fixpoint for_each {A S : Type} (xs : list A) (body : S -> A -> result S)
    (acc : S) : result S :=
  match xs with
  | [] => Ok acc
  | x :: rest => bind (body acc x) (for_each rest body)
  end.

Definition Qltb (x y : Q) : bool := negb (Qle_bool y x).

(** [x / y]: true division; raises when the divisor is zero. *)
Definition div (x y : Q) : result Q :=
  if Qeq_bool y 0 then Raise ZeroDivisionError else Ok (x / y)%Q.

(** [x % m] for a positive modulus: the result has the sign of [m]. *)
Definition mod_ (x m : Q) : Q :=
  (x - m * inject_Z (Qfloor (x / m)))%Q.

(** [math.ceil]. *)
Definition ceil (x : Q) : Z := Qceiling x.

(** Nearest integer, ties to the even neighbour. *)
Definition round_half_even (x : Q) : Z :=
  let f := Qfloor x in
  let r := (x - inject_Z f)%Q in
  if Qltb r (1 # 2) then f
  else if Qltb (1 # 2) r then (f + 1)%Z
  else if Z.even f then f else (f + 1)%Z.

(** [round(x, ndigits)] for [ndigits >= 0]. *)
Definition round (x : Q) (ndigits : nat) : Q :=
  let scale := Z.pow 10 (Z.of_nat ndigits) in
  (inject_Z (round_half_even (x * inject_Z scale)) / inject_Z scale)%Q.

(** [floor (log2 q)] for a positive rational. *)
Definition Qlog2 (q : Q) : Z :=
  let k := (Z.log2 (Qnum q) - Z.log2 (Zpos (Qden q)))%Z in
  if Qle_bool (2 ^ k) q then k else (k - 1)%Z.

(** The exponent of the last place of a positive binary64 magnitude:
    52 places below the leading bit, and never below the subnormal
    spacing [2 ^ -1074]. *)
Definition cexp (q : Q) : Z := Z.max (Qlog2 q - 52) (-1074).

(** Rounding of a positive magnitude to a multiple of its last place. *)
Definition fl_pos (q : Q) : Q :=
  (inject_Z (round_half_even (q / 2 ^ cexp q)) * 2 ^ cexp q)%Q.

(** The binary64 value nearest to [q], ties to even: the result of a
    float operation whose exact result is [q]. *)
Definition fl (q : Q) : Q :=
  match (q ?= 0)%Q with
  | Eq => 0%Q
  | Gt => fl_pos q
  | Lt => (- fl_pos (- q))%Q
  end.

(** Truncation towards zero. *)
Definition Qtrunc (x : Q) : Z :=
  if Qle_bool 0 x then Qfloor x else Qceiling x.

(** C [fmod(x, m)]: the remainder with the sign of [x].  The exact
    remainder is a binary64 value when [x] and [m] are, so the rounding
    changes nothing then. *)
Definition fmod (x m : Q) : Q :=
  fl (x - m * inject_Z (Qtrunc (x / m)))%Q.

(** [x % m] on floats, as CPython computes it: [fmod], then [m] is
    added when the remainder is not zero and its sign differs from the
    sign of [m]. *)
Definition float_mod (x m : Q) : Q :=
  let r := fmod x m in
  if negb (Qeq_bool r 0) && negb (Bool.eqb (Qltb m 0) (Qltb r 0))
  then fl (r + m)%Q else r.

(** [range(n)] and [range(a, b)]. *)
Definition range (n : Z) : list Z :=
  map Z.of_nat (seq 0 (Z.to_nat n)).
Definition range2 (a b : Z) : list Z :=
  map (fun k => (a + Z.of_nat k)%Z) (seq 0 (Z.to_nat (b - a))).

(** [str(n)] for an [int]. *)
Definition str_of_int (n : Z) : string :=
  NilZero.string_of_int (Z.to_int n).

End Py.

(** [x ← m; k] sequences computations that may raise. *)
#[export] Instance result_bind : MBind Py.result :=
  fun A B k m => Py.bind m k.
#[export] Instance result_ret : MRet Py.result := @Py.Ok.

(* ===================================================================== *)
(** ** External libraries: [math], [astral], [datetime], [str] *)
(* ===================================================================== *)

(** The functions of the [math] module that the code calls.  [math.sqrt]
    is applied only to [a] and [1 - a] of the haversine formula. *)
Module math.
Class lib : Type := {
  radians : Q -> Q;
  degrees : Q -> Q;
  sin : Q -> Q;
  cos : Q -> Q;
  sqrt : Q -> Q;
  atan2 : Q -> Q -> Q
}.

(** What the exposure bounds use of them: a square root is not
    negative, and [atan2 y x] is not negative when [y] is not. *)
Class laws (M : lib) : Prop := {
  sqrt_nonneg : forall x, (0 <= sqrt x)%Q;
  atan2_nonneg : forall y x, (0 <= y)%Q -> (0 <= atan2 y x)%Q
}.
End math.

(** A [datetime] is a count of microseconds; [timedelta(seconds=s)]
    rounds [s] to the nearest microsecond. *)
Definition datetime : Type := Z.

Definition timedelta (seconds : Q) : Z :=
  Py.round_half_even (seconds * 1000000).

(** [astral.Observer] and the solar position functions of [astral.sun]. *)
Module astral.
Record Observer : Type := { latitude : Q; longitude : Q }.

Class sun : Type := {
  azimuth : Observer -> datetime -> Q;
  elevation : Observer -> datetime -> Q
}.
End astral.

(** [str.strip] and [str.lower]. *)
Module str.
Class lib : Type := {
  strip : string -> string;
  lower : string -> string
}.
End str.

(* ===================================================================== *)
(** ** Constants *)
(* ===================================================================== *)

Definition TOTAL_ROWS : Z := 12.
Definition SIDE_THRESHOLD : Q := 30.
Definition SAMPLE_INTERVAL_KM : Q := 5.

(* ===================================================================== *)
(** ** Geometry utilities *)
(* ===================================================================== *)

(** [(angle + 180) % 360 - 180]: three float operations, each rounded. *)
Definition normalize (angle : Q) : Q :=
  Py.fl (Py.float_mod (Py.fl (angle + 180)) 360 - 180)%Q.

Section Geometry.
Context {M : math.lib}.
Local Open Scope Q_scope.

Definition haversine (lat1 lon1 lat2 lon2 : Q) : Q :=
  let R := 6371 in
  let dlat := math.radians (lat2 - lat1) in
  let dlon := math.radians (lon2 - lon1) in
  let a :=
    math.sin (dlat / 2) ^ 2
    + math.cos (math.radians lat1)
      * math.cos (math.radians lat2)
      * math.sin (dlon / 2) ^ 2 in
  R * 2 * math.atan2 (math.sqrt a) (math.sqrt (1 - a)).

Definition calculate_bearing (lat1 lon1 lat2 lon2 : Q) : Q :=
  let dlon := math.radians (lon2 - lon1) in
  let lat1 := math.radians lat1 in
  let lat2 := math.radians lat2 in
  let x := math.sin dlon * math.cos lat2 in
  let y := math.cos lat1 * math.sin lat2
           - math.sin lat1 * math.cos lat2 * math.cos dlon in
  Py.mod_ (math.degrees (math.atan2 x y) + 360) 360.

End Geometry.

(* ===================================================================== *)
(** ** Exposure engine *)
(* ===================================================================== *)

Record ExposureTotals : Type := {
  front_left : Q;
  back_left : Q;
  front_right : Q;
  back_right : Q
}.

Definition zero_totals : ExposureTotals :=
  {| front_left := 0; back_left := 0; front_right := 0; back_right := 0 |}.


(** A route point, in the GeoJSON order [[lon, lat]]. *)
Definition coord : Type := (Q * Q)%type.

(** What the accumulation step reads at one sample point. *)
Record Sample : Type := {
  s_sun_az : Q;
  s_sun_el : Q;
  s_seg_bearing : Q;
  s_sub_time_s : Q
}.

(** The pairs [(coords[i], coords[i + 1])] for [i] in
    [range(len(coords) - 1)]. *)
Fixpoint segments (coords : list coord) : list (coord * coord) :=
  match coords with
  | p1 :: rest =>
      match rest with
      | p2 :: _ => (p1, p2) :: segments rest
      | [] => []
      end
  | [] => []
  end.

Section Accumulate.
Local Open Scope Q_scope.

(** Lines 157-173: the classification of one sample and the update of
    the four accumulators. *)
Definition accumulate_sample (acc : ExposureTotals) (s : Sample)
    : ExposureTotals :=
  if Py.Qltb 0 (s_sun_el s) then
    let relative := normalize (s_sun_az s - s_seg_bearing s) in
    let abs_rel := Qabs relative in
    if Qle_bool SIDE_THRESHOLD abs_rel && Qle_bool abs_rel 150 then
      let mins := s_sub_time_s s / 60 in
      if Py.Qltb 0 relative then
        if Qle_bool abs_rel 90 then
          {| front_left := front_left acc; back_left := back_left acc;
             front_right := front_right acc + mins;
             back_right := back_right acc |}
        else
          {| front_left := front_left acc; back_left := back_left acc;
             front_right := front_right acc;
             back_right := back_right acc + mins |}
      else
        if Qle_bool abs_rel 90 then
          {| front_left := front_left acc + mins;
             back_left := back_left acc;
             front_right := front_right acc;
             back_right := back_right acc |}
        else
          {| front_left := front_left acc;
             back_left := back_left acc + mins;
             front_right := front_right acc;
             back_right := back_right acc |}
    else acc
  else acc.

(** The same step with the side test written [relative >= 0]. *)
Definition accumulate_sample_ge (acc : ExposureTotals) (s : Sample)
    : ExposureTotals :=
  if Py.Qltb 0 (s_sun_el s) then
    let relative := normalize (s_sun_az s - s_seg_bearing s) in
    let abs_rel := Qabs relative in
    if Qle_bool SIDE_THRESHOLD abs_rel && Qle_bool abs_rel 150 then
      let mins := s_sub_time_s s / 60 in
      if Qle_bool 0 relative then
        if Qle_bool abs_rel 90 then
          {| front_left := front_left acc; back_left := back_left acc;
             front_right := front_right acc + mins;
             back_right := back_right acc |}
        else
          {| front_left := front_left acc; back_left := back_left acc;
             front_right := front_right acc;
             back_right := back_right acc + mins |}
      else
        if Qle_bool abs_rel 90 then
          {| front_left := front_left acc + mins;
             back_left := back_left acc;
             front_right := front_right acc;
             back_right := back_right acc |}
        else
          {| front_left := front_left acc;
             back_left := back_left acc + mins;
             front_right := front_right acc;
             back_right := back_right acc |}
    else acc
  else acc.

End Accumulate.

Section Exposure.
Context {M : math.lib} {A : astral.sun}.
Local Open Scope Q_scope.

(** Lines 122-129: the first loop. *)
Definition segment_distance (seg : coord * coord) : Q :=
  let '((lon1, lat1), (lon2, lat2)) := seg in
  haversine lat1 lon1 lat2 lon2.

Definition measure (coords : list coord) : list Q * Q :=
  fold_left
    (fun '(segment_distances, total_distance) seg =>
       let d := segment_distance seg in
       (segment_distances ++ [d], total_distance + d))
    (segments coords) ([], 0).

(** Lines 149-155: the sample taken at fraction [frac_mid] of a
    segment. *)
Definition sample_at (seg : coord * coord)
    (seg_bearing seg_time_s sub_time_s : Q) (current_time : datetime)
    (frac_mid : Q) : Sample :=
  let '((lon1, lat1), (lon2, lat2)) := seg in
  let sub_lat := lat1 + (lat2 - lat1) * frac_mid in
  let sub_lon := lon1 + (lon2 - lon1) * frac_mid in
  let sub_time := (current_time + timedelta (seg_time_s * frac_mid))%Z in
  let observer :=
    {| astral.latitude := sub_lat; astral.longitude := sub_lon |} in
  {| s_sun_az := astral.azimuth observer sub_time;
     s_sun_el := astral.elevation observer sub_time;
     s_seg_bearing := seg_bearing;
     s_sub_time_s := sub_time_s |}.

(** The walk of lines 134-175, for any per-sample step [on_sample] on
    any accumulator; [compute_exposure] runs it with
    [accumulate_sample]. *)
Section Walk.
Context {S : Type} (on_sample : S -> Sample -> S).

Definition sub_body (seg : coord * coord)
    (seg_bearing seg_time_s sub_time_s : Q) (n_sub : Z)
    (current_time : datetime) (acc : S) (sub : Z) : Py.result S :=
  frac_mid ← Py.div (inject_Z sub + (1 # 2)) (inject_Z n_sub);
  Py.Ok (on_sample acc
           (sample_at seg seg_bearing seg_time_s sub_time_s current_time
              frac_mid)).

Definition seg_body (total_distance total_duration : Q)
    (st : S * datetime) (item : (coord * coord) * Q)
    : Py.result (S * datetime) :=
  let '(acc, current_time) := st in
  let '(seg, seg_dist) := item in
  share ← Py.div seg_dist total_distance;
  let seg_time_s := share * total_duration in
  let '((lon1, lat1), (lon2, lat2)) := seg in
  let seg_bearing := calculate_bearing lat1 lon1 lat2 lon2 in
  let n_sub := Z.max 1 (Py.ceil (seg_dist / SAMPLE_INTERVAL_KM)) in
  sub_time_s ← Py.div seg_time_s (inject_Z n_sub);
  acc' ← Py.for_each (Py.range n_sub)
            (sub_body seg seg_bearing seg_time_s sub_time_s n_sub
               current_time)
            acc;
  Py.Ok (acc', (current_time + timedelta seg_time_s)%Z).

Definition walk (init : S) (coords : list coord)
    (segment_distances : list Q) (total_distance total_duration : Q)
    (dt : datetime) : Py.result S :=
  st ← Py.for_each (combine (segments coords) segment_distances)
          (seg_body total_distance total_duration) (init, dt);
  Py.Ok (fst st).

End Walk.

Definition compute_exposure (coords : list coord) (total_duration : Q)
    (dt : datetime) : Py.result ExposureTotals :=
  let '(segment_distances, total_distance) := measure coords in
  if Qeq_bool total_distance 0 then Py.Ok zero_totals
  else walk accumulate_sample zero_totals coords segment_distances
         total_distance total_duration dt.

(** [compute_exposure] with the side test [relative >= 0]. *)
Definition compute_exposure_ge (coords : list coord) (total_duration : Q)
    (dt : datetime) : Py.result ExposureTotals :=
  let '(segment_distances, total_distance) := measure coords in
  if Qeq_bool total_distance 0 then Py.Ok zero_totals
  else walk accumulate_sample_ge zero_totals coords segment_distances
         total_distance total_duration dt.

(** The samples the walk visits, in order. *)
Definition route_samples (coords : list coord) (total_duration : Q)
    (dt : datetime) : Py.result (list Sample) :=
  let '(segment_distances, total_distance) := measure coords in
  walk (fun visited s => visited ++ [s]) [] coords segment_distances
    total_distance total_duration dt.

End Exposure.

(** A sample is lit when the sun is above the horizon and between 30 and
    150 degrees off the heading, on either side. *)
Definition lit (s : Sample) : Prop :=
  (0 < s_sun_el s
   /\ 30 <= Qabs (normalize (s_sun_az s - s_seg_bearing s))
   /\ Qabs (normalize (s_sun_az s - s_seg_bearing s)) <= 150)%Q.

(* ===================================================================== *)
(** ** Seat allocator *)
(* ===================================================================== *)

Inductive Side : Type := LEFT | RIGHT.
Inductive Position : Type := WINDOW | MIDDLE | AISLE.

(** A seat as the first loop builds it, before it has a ratio. *)
Record SeatEntry : Type := {
  e_seat_id : string;
  e_row : Z;
  e_side : Side;
  e_position : Position;
  e_exposure_minutes : Q
}.

Record Seat : Type := {
  seat_id : string;
  row : Z;
  side : Side;
  position : Position;
  exposure_minutes : Q;
  exposure_ratio : Q
}.

Section Seats.
Local Open Scope Q_scope.

(** [max(xs, default=d)]: the first of the largest elements. *)
Definition max_default (xs : list Q) (d : Q) : Q :=
  match xs with
  | [] => d
  | x :: rest => fold_left (fun m y => if Py.Qltb m y then y else m) rest x
  end.

(** Lines 194-206: the five seats of one row. *)
Definition row_seats (exposure : ExposureTotals) (total_rows r : Z)
    : Py.result (list SeatEntry) :=
  front_w ← Py.div (inject_Z (total_rows - r)) (inject_Z total_rows);
  back_w ← Py.div (inject_Z r) (inject_Z total_rows);
  let left_base :=
    front_w * front_left exposure + back_w * back_left exposure in
  let right_base :=
    front_w * front_right exposure + back_w * back_right exposure in
  let n := Py.str_of_int r in
  Py.Ok
    [ {| e_seat_id := String.append "L" (String.append n "A");
         e_row := r; e_side := LEFT; e_position := WINDOW;
         e_exposure_minutes := Py.round (left_base * 1) 2 |};
      {| e_seat_id := String.append "L" (String.append n "B");
         e_row := r; e_side := LEFT; e_position := AISLE;
         e_exposure_minutes := Py.round (left_base * (25 # 100)) 2 |};
      {| e_seat_id := String.append "R" (String.append n "C");
         e_row := r; e_side := RIGHT; e_position := WINDOW;
         e_exposure_minutes := Py.round (right_base * 1) 2 |};
      {| e_seat_id := String.append "R" (String.append n "B");
         e_row := r; e_side := RIGHT; e_position := MIDDLE;
         e_exposure_minutes := Py.round (right_base * (40 # 100)) 2 |};
      {| e_seat_id := String.append "R" (String.append n "A");
         e_row := r; e_side := RIGHT; e_position := AISLE;
         e_exposure_minutes := Py.round (right_base * (15 # 100)) 2 |} ].

(** Line 210: the ratio given to one seat. *)
Definition with_ratio (max_exp : Q) (e : SeatEntry) : Py.result Seat :=
  ratio ←
    (if Py.Qltb 0 max_exp then
       q ← Py.div (e_exposure_minutes e) max_exp;
       Py.Ok (Py.round q 3)
     else Py.Ok 0);
  Py.Ok {| seat_id := e_seat_id e; row := e_row e; side := e_side e;
           position := e_position e;
           exposure_minutes := e_exposure_minutes e;
           exposure_ratio := ratio |}.

Definition build_seat_list (exposure : ExposureTotals) (total_rows : Z)
    : Py.result (list Seat) :=
  seats ← Py.for_each (Py.range2 1 (total_rows + 1))
             (fun seats r =>
                added ← row_seats exposure total_rows r;
                Py.Ok (seats ++ added))
             [];
  let max_exp := max_default (map e_exposure_minutes seats) 0 in
  Py.for_each seats
    (fun out e => seat ← with_ratio max_exp e; Py.Ok (out ++ [seat]))
    [].

(** The seat of a list with a given identifier. *)
Definition find_seat (id : string) (seats : list Seat) : option Seat :=
  find (fun s => String.eqb (seat_id s) id) seats.

(** How many seats of a list have ratio 1. *)
Definition count_ratio_one (seats : list Seat) : nat :=
  length (filter (fun s => Qeq_bool (exposure_ratio s) 1) seats).

End Seats.

(* ===================================================================== *)
(** ** Lookup caches *)
(* ===================================================================== *)

(** What the geocoding service answers: the request fails (transport
    error, error status, malformed body), or it yields a list of
    [(lat, lon)] hits. *)
Inductive geo_response : Type :=
| GeoFail
| GeoData (data : list (Q * Q)).

(** What the routing service answers: the request fails or the body has
    no usable route, or it yields the coordinates and duration of the
    first route. *)
Inductive route_response : Type :=
| RouteFail
| RouteData (coords : list coord) (duration : Q).

(** A request sent to one of the two services. *)
Inductive request : Type :=
| Nominatim (q : string)
| Osrm (start_lon start_lat end_lon end_lat : Q).

(** The services as seen by one call. *)
Record network : Type := {
  geocoder : string -> geo_response;
  router : Q -> Q -> Q -> Q -> route_response
}.

(** The module-level caches, and the requests sent so far.  A geocode
    entry [Some None] is a stored [None]; an absent key is [None]. *)
Record state : Type := {
  _geocode_cache : gmap string (option (Q * Q));
  _route_cache : gmap string (list coord * Q);
  sent : list request
}.

Definition initial_state : state :=
  {| _geocode_cache := ∅; _route_cache := ∅; sent := [] |}.

(** [f"{x:.4f}"]: sign, integer part, point, four digits. *)
Definition format_4f (x : Q) : string :=
  let n := Z.abs (Py.round_half_even (x * 10000)) in
  let frac := NilZero.string_of_uint (N.to_uint (Z.to_N (n mod 10000 + 10000))) in
  String.append (if Py.Qltb x 0 then "-" else "")
    (String.append (NilZero.string_of_uint (N.to_uint (Z.to_N (n / 10000))))
       (String.append "." (String.substring 1 4 frac))).

Definition route_key (start_lat start_lon end_lat end_lon : Q) : string :=
  String.append (format_4f start_lat)
    (String.append ","
       (String.append (format_4f start_lon)
          (String.append ";"
             (String.append (format_4f end_lat)
                (String.append "," (format_4f end_lon)))))).

Section Caches.
Context {L : str.lib}.

Definition geocode_key (place_name : string) : string :=
  str.lower (str.strip place_name).

(** One call of [geocode_location]; it never raises. *)
Definition geocode_location (net : network) (place_name : string)
    (st : state) : option (Q * Q) * state :=
  let key := geocode_key place_name in
  match _geocode_cache st !! key with
  | Some cached => (cached, st)
  | None =>
      let st1 :=
        {| _geocode_cache := _geocode_cache st;
           _route_cache := _route_cache st;
           sent := sent st ++ [Nominatim place_name] |} in
      let store v :=
        {| _geocode_cache := <[key := v]> (_geocode_cache st1);
           _route_cache := _route_cache st1;
           sent := sent st1 |} in
      match geocoder net place_name with
      | GeoData (hit :: _) => (Some hit, store (Some hit))
      | GeoData [] => (None, store None)
      | GeoFail => (None, store None)
      end
  end.

(** One call of [get_route]; a failed request raises. *)
Definition get_route (net : network)
    (start_lat start_lon end_lat end_lon : Q) (st : state)
    : Py.result (list coord * Q) * state :=
  let key := route_key start_lat start_lon end_lat end_lon in
  match _route_cache st !! key with
  | Some cached => (Py.Ok cached, st)
  | None =>
      let st1 :=
        {| _geocode_cache := _geocode_cache st;
           _route_cache := _route_cache st;
           sent := sent st ++ [Osrm start_lon start_lat end_lon end_lat] |} in
      match router net start_lon start_lat end_lon end_lat with
      | RouteFail => (Py.Raise Py.HTTPError, st1)
      | RouteData coords duration =>
          (Py.Ok (coords, duration),
           {| _geocode_cache := _geocode_cache st1;
              _route_cache := <[key := (coords, duration)]> (_route_cache st1);
              sent := sent st1 |})
      end
  end.

End Caches.

(** The four accumulators. *)
Inductive Quadrant : Type := FrontLeft | BackLeft | FrontRight | BackRight.

(** Adding [mins] to one accumulator, or to none. *)
Definition credit (q : option Quadrant) (mins : Q) (acc : ExposureTotals)
    : ExposureTotals :=
  match q with
  | None => acc
  | Some FrontLeft =>
      {| front_left := front_left acc + mins; back_left := back_left acc;
         front_right := front_right acc; back_right := back_right acc |}
  | Some BackLeft =>
      {| front_left := front_left acc; back_left := back_left acc + mins;
         front_right := front_right acc; back_right := back_right acc |}
  | Some FrontRight =>
      {| front_left := front_left acc; back_left := back_left acc;
         front_right := front_right acc + mins; back_right := back_right acc |}
  | Some BackRight =>
      {| front_left := front_left acc; back_left := back_left acc;
         front_right := front_right acc; back_right := back_right acc + mins |}
  end.

(** The classification policy in the words of the design: nothing for a
    sample that is not lit; otherwise the side by the sign of the
    relative angle and front or back by its size. *)
Inductive selects (s : Sample) : option Quadrant -> Prop :=
| selects_none :
    ~ lit s -> selects s None
| selects_front_right :
    lit s ->
    (0 < normalize (s_sun_az s - s_seg_bearing s))%Q ->
    (Qabs (normalize (s_sun_az s - s_seg_bearing s)) <= 90)%Q ->
    selects s (Some FrontRight)
| selects_back_right :
    lit s ->
    (0 < normalize (s_sun_az s - s_seg_bearing s))%Q ->
    (90 < Qabs (normalize (s_sun_az s - s_seg_bearing s)))%Q ->
    selects s (Some BackRight)
| selects_front_left :
    lit s ->
    (normalize (s_sun_az s - s_seg_bearing s) <= 0)%Q ->
    (Qabs (normalize (s_sun_az s - s_seg_bearing s)) <= 90)%Q ->
    selects s (Some FrontLeft)
| selects_back_left :
    lit s ->
    (normalize (s_sun_az s - s_seg_bearing s) <= 0)%Q ->
    (90 < Qabs (normalize (s_sun_az s - s_seg_bearing s)))%Q ->
    selects s (Some BackLeft).

(* ===================================================================== *)
(** ** Concrete libraries for evaluation *)
(* ===================================================================== *)

(** Rational versions of the library functions, used where a property
    is evaluated on a concrete route: truncated series for sine and
    cosine, an integer square root at six decimals, and a rational
    arctangent by sectors. *)
Module Rational.
Local Open Scope Q_scope.

Definition pi : Q := 355 # 113.

Definition radians (x : Q) : Q := x * pi / 180.
Definition degrees (x : Q) : Q := x * 180 / pi.

Definition sin (x : Q) : Q := x - x ^ 3 / 6 + x ^ 5 / 120.
Definition cos (x : Q) : Q := 1 - x ^ 2 / 2 + x ^ 4 / 24.

Definition sqrt (x : Q) : Q :=
  inject_Z (Z.sqrt (Qfloor (x * 1000000000000))) / 1000000.

(** Arctangent on [-1, 1]. *)
Definition atan_unit (t : Q) : Q := t / (1 + (9 # 32) * t ^ 2).

Definition atan2 (y x : Q) : Q :=
  if Qeq_bool y 0 && Qeq_bool x 0 then 0
  else if Qle_bool (Qabs y) x then atan_unit (y / x)
  else if Qle_bool (Qabs x) y then pi / 2 - atan_unit (x / y)
  else if Qle_bool (Qabs y) (- x) then
    (if Qle_bool 0 y then pi + atan_unit (y / x)
     else - pi + atan_unit (y / x))
  else - pi / 2 - atan_unit (x / y).

Definition math_lib : math.lib :=
  {| math.radians := radians; math.degrees := degrees;
     math.sin := sin; math.cos := cos;
     math.sqrt := sqrt; math.atan2 := atan2 |}.

(** A sun that stays at one azimuth and elevation. *)
Definition fixed_sun (az el : Q) : astral.sun :=
  {| astral.azimuth := fun _ _ => az;
     astral.elevation := fun _ _ => el |}.

(** [str.strip] and [str.lower] on ASCII text. *)
Definition is_space (c : ascii) : bool :=
  let n := nat_of_ascii c in
  (Nat.eqb n 32 || (Nat.leb 9 n && Nat.leb n 13))%bool.

Fixpoint lstrip (s : string) : string :=
  match s with
  | String c rest => if is_space c then lstrip rest else s
  | EmptyString => EmptyString
  end.

Fixpoint rstrip (s : string) : string :=
  match s with
  | String c rest =>
      match rstrip rest with
      | EmptyString => if is_space c then EmptyString
                       else String c EmptyString
      | kept => String c kept
      end
  | EmptyString => EmptyString
  end.

Definition strip (s : string) : string := rstrip (lstrip s).

Definition lower_ascii (c : ascii) : ascii :=
  let n := nat_of_ascii c in
  if (Nat.leb 65 n && Nat.leb n 90)%bool then ascii_of_nat (n + 32) else c.

Fixpoint lower (s : string) : string :=
  match s with
  | String c rest => String (lower_ascii c) (lower rest)
  | EmptyString => EmptyString
  end.

Definition str_lib : str.lib := {| str.strip := strip; str.lower := lower |}.

End Rational.

(** Line 123-129: the total route distance the guard of line 131 tests. *)
Definition total_distance {M : math.lib} (coords : list coord) : Q :=
  snd (measure coords).

(** The walk in closed form: the samples of one segment, and of a list of
    segments taken from a given clock time on. *)
Section Samples.
Context {M : math.lib} {A : astral.sun}.
Local Open Scope Q_scope.

Definition segment_time (total_distance total_duration : Q)
    (item : (coord * coord) * Q) : Q :=
  snd item / total_distance * total_duration.

Definition segment_samples (total_distance total_duration : Q)
    (current_time : datetime) (item : (coord * coord) * Q) : list Sample :=
  let seg := fst item in
  let seg_dist := snd item in
  let seg_time_s := segment_time total_distance total_duration item in
  let seg_bearing :=
    calculate_bearing (snd (fst seg)) (fst (fst seg))
      (snd (snd seg)) (fst (snd seg)) in
  let n_sub := Z.max 1 (Py.ceil (seg_dist / SAMPLE_INTERVAL_KM)) in
  let sub_time_s := seg_time_s / inject_Z n_sub in
  map (fun sub =>
         sample_at seg seg_bearing seg_time_s sub_time_s current_time
           ((inject_Z sub + (1 # 2)) / inject_Z n_sub))
    (Py.range n_sub).

Fixpoint samples_from (total_distance total_duration : Q)
    (current_time : datetime) (items : list ((coord * coord) * Q))
    : list Sample :=
  match items with
  | [] => []
  | item :: rest =>
      segment_samples total_distance total_duration current_time item
      ++ samples_from total_distance total_duration
           (current_time
            + timedelta (segment_time total_distance total_duration item))%Z
           rest
  end.

Fixpoint clock_after (total_distance total_duration : Q)
    (current_time : datetime) (items : list ((coord * coord) * Q))
    : datetime :=
  match items with
  | [] => current_time
  | item :: rest =>
      clock_after total_distance total_duration
        (current_time
         + timedelta (segment_time total_distance total_duration item))%Z
        rest
  end.

End Samples.

(** Kilometres covered by a list of segments. *)
Definition sum_dist (items : list ((coord * coord) * Q)) : Q :=
  fold_right (fun it a => (snd it + a)%Q) 0%Q items.

(** Line 210 in closed form: the seat made of an entry. *)
Definition rated (max_exp : Q) (e : SeatEntry) : Seat :=
  {| seat_id := e_seat_id e; row := e_row e; side := e_side e;
     position := e_position e;
     exposure_minutes := e_exposure_minutes e;
     exposure_ratio :=
       if Py.Qltb 0 max_exp
       then Py.round (e_exposure_minutes e / max_exp) 3
       else 0%Q |}.

(** Totals none of which is negative, and totals that are all zero. *)
Definition nonneg_totals (t : ExposureTotals) : Prop :=
  (0 <= front_left t /\ 0 <= back_left t
   /\ 0 <= front_right t /\ 0 <= back_right t)%Q.

Definition all_zero_totals (t : ExposureTotals) : Prop :=
  (front_left t == 0 /\ back_left t == 0
   /\ front_right t == 0 /\ back_right t == 0)%Q.

(** Services that fail every request. *)
Definition offline : network :=
  {| geocoder := fun _ => GeoFail;
     router := fun _ _ _ _ => RouteFail |}.

(** The seat model of lines 194-206 as a table: the front and back
    totals of a side, the base of a side in a row, and the multiplier of
    each seat position that exists on a side. *)
Definition front_of (sd : Side) (exposure : ExposureTotals) : Q :=
  match sd with
  | LEFT => front_left exposure
  | RIGHT => front_right exposure
  end.

Definition back_of (sd : Side) (exposure : ExposureTotals) : Q :=
  match sd with
  | LEFT => back_left exposure
  | RIGHT => back_right exposure
  end.

Definition side_base (exposure : ExposureTotals) (total_rows r : Z)
    (sd : Side) : Q :=
  (inject_Z (total_rows - r) / inject_Z total_rows * front_of sd exposure
   + inject_Z r / inject_Z total_rows * back_of sd exposure)%Q.

Definition multiplier (sd : Side) (pos : Position) : option Q :=
  match sd, pos with
  | LEFT, WINDOW => Some 1%Q
  | LEFT, AISLE => Some (25 # 100)%Q
  | LEFT, MIDDLE => None
  | RIGHT, WINDOW => Some 1%Q
  | RIGHT, MIDDLE => Some (40 # 100)%Q
  | RIGHT, AISLE => Some (15 # 100)%Q
  end.

(** How close to the window a position is. *)
Definition window_rank (pos : Position) : nat :=
  match pos with
  | WINDOW => 2
  | MIDDLE => 1
  | AISLE => 0
  end.

(** What the rows loop produces, entry by entry: a row of the range, a
    position that exists on the side, and the minutes of the table. *)
Definition entry_ok (exposure : ExposureTotals) (total_rows : Z)
    (e : SeatEntry) : Prop :=
  (1 <= e_row e <= total_rows)%Z
  /\ exists m,
       multiplier (e_side e) (e_position e) = Some m
       /\ e_exposure_minutes e
          = Py.round
              (side_base exposure total_rows (e_row e) (e_side e) * m)%Q 2.

(** Services that answer every request with the same hit and route. *)
Definition online (hit : Q * Q) (coords : list coord) (duration : Q)
    : network :=
  {| geocoder := fun _ => GeoData [hit];
     router := fun _ _ _ _ => RouteData coords duration |}.

(** The first and last letter of a seat identifier, for each position
    that exists on a side. *)
Definition seat_letters (sd : Side) (pos : Position)
    : option (ascii * ascii) :=
  match sd, pos with
  | LEFT, WINDOW => Some ("L", "A")%char
  | LEFT, AISLE => Some ("L", "B")%char
  | LEFT, MIDDLE => None
  | RIGHT, WINDOW => Some ("R", "C")%char
  | RIGHT, MIDDLE => Some ("R", "B")%char
  | RIGHT, AISLE => Some ("R", "A")%char
  end.

(** An entry whose identifier is made of its side letter, its row
    number and its position letter. *)
Definition entry_named (e : SeatEntry) : Prop :=
  exists c1 c2,
    seat_letters (e_side e) (e_position e) = Some (c1, c2)
    /\ e_seat_id e
       = String c1 (String.append (Py.str_of_int (e_row e))
                      (String c2 EmptyString)).

(* ===================================================================== *)
(** ** Request orchestrator, once the route is known *)
(* ===================================================================== *)

(** The body of the response of [seat_recommendation]. *)
Record Response : Type := {
  front_left_minutes : Q;
  back_left_minutes : Q;
  front_right_minutes : Q;
  back_right_minutes : Q;
  seats : list Seat
}.

(** Lines 248-257 of [seat_recommendation]: what is computed from the
    route, its duration and the departure time, after both places and
    the route have been resolved. *)
Definition recommendation {M : math.lib} {A : astral.sun}
    (coords : list coord) (total_duration : Q) (dt : datetime)
    : Py.result Response :=
  exposure ← compute_exposure coords total_duration dt;
  seats ← build_seat_list exposure TOTAL_ROWS;
  Py.Ok {| front_left_minutes := Py.round (front_left exposure) 2;
           back_left_minutes := Py.round (back_left exposure) 2;
           front_right_minutes := Py.round (front_right exposure) 2;
           back_right_minutes := Py.round (back_right exposure) 2;
           seats := seats |}.

(* ===================================================================== *)
(** ** Properties *)
(* ===================================================================== *)

Section NormalizeFacts.
Local Open Scope Q_scope.

Lemma mod_360_range (x : Q) : 0 <= Py.mod_ x 360 /\ Py.mod_ x 360 < 360.
Proof.
  unfold Py.mod_.
  pose proof (Qfloor_le (x / 360)) as Hlo.
  pose proof (Qlt_floor (x / 360)) as Hhi.
  assert (Hx : x == 360 * (x / 360)) by (field).
  set (f := Qfloor (x / 360)) in *.
  assert (Hf1 : inject_Z (f + 1) == inject_Z f + 1)
    by (rewrite inject_Z_plus; reflexivity).
  rewrite Hf1 in Hhi.
  split; lra.
Qed.

End NormalizeFacts.


(** *** Boolean tests *)

Section Tests.
Local Open Scope Q_scope.

Lemma Qltb_true (x y : Q) : Py.Qltb x y = true <-> x < y.
Proof.
  unfold Py.Qltb. rewrite negb_true_iff.
  destruct (Qle_bool y x) eqn:E.
  - apply Qle_bool_iff in E. split; [discriminate | intros H; lra].
  - split; [intros _ | reflexivity].
    apply Qnot_le_lt. intros H. apply Qle_bool_iff in H. congruence.
Qed.

Lemma Qltb_false (x y : Q) : Py.Qltb x y = false <-> y <= x.
Proof.
  destruct (Py.Qltb x y) eqn:E.
  - apply Qltb_true in E. split; [discriminate | intros H; lra].
  - split; [intros _ | reflexivity].
    apply Qnot_lt_le. intros H. apply Qltb_true in H. congruence.
Qed.

Lemma Qle_bool_false (x y : Q) : Qle_bool x y = false <-> y < x.
Proof.
  destruct (Qle_bool x y) eqn:E.
  - apply Qle_bool_iff in E. split; [discriminate | intros H; lra].
  - split; [intros _ | reflexivity].
    apply Qnot_le_lt. intros H. apply Qle_bool_iff in H. congruence.
Qed.

Lemma div_ok (x y : Q) : ~ y == 0 -> Py.div x y = Py.Ok (x / y).
Proof.
  intros H. unfold Py.div.
  destruct (Qeq_bool y 0) eqn:E; [| reflexivity].
  apply Qeq_bool_iff in E. contradiction.
Qed.

Lemma div_zero (x y : Q) :
  y == 0 -> Py.div x y = Py.Raise Py.ZeroDivisionError.
Proof.
  intros H. unfold Py.div.
  apply Qeq_bool_iff in H. rewrite H. reflexivity.
Qed.

End Tests.

(** *** Classification of one sample *)

Section Classification.
Local Open Scope Q_scope.

Lemma selects_some_lit (s : Sample) (q : Quadrant) :
  selects s (Some q) -> lit s.
Proof. intros H. inversion H; assumption. Qed.

Lemma accumulate_sample_credit (acc : ExposureTotals) (s : Sample) :
  exists q,
    selects s q
    /\ accumulate_sample acc s = credit q (s_sub_time_s s / 60) acc.
Proof.
  unfold accumulate_sample, SIDE_THRESHOLD.
  set (relative := normalize (s_sun_az s - s_seg_bearing s)).
  assert (Hlit : lit s <->
                 0 < s_sun_el s
                 /\ 30 <= Qabs relative /\ Qabs relative <= 150)
    by reflexivity.
  destruct (Py.Qltb 0 (s_sun_el s)) eqn:Hel.
  - apply Qltb_true in Hel.
    destruct (Qle_bool 30 (Qabs relative) && Qle_bool (Qabs relative) 150)
      eqn:Hband.
    + apply andb_true_iff in Hband as [Hlo Hhi].
      apply Qle_bool_iff in Hlo. apply Qle_bool_iff in Hhi.
      assert (L : lit s) by (apply Hlit; auto).
      destruct (Py.Qltb 0 relative) eqn:Hside;
        destruct (Qle_bool (Qabs relative) 90) eqn:Hfront.
      * apply Qltb_true in Hside. apply Qle_bool_iff in Hfront.
        exists (Some FrontRight).
        split; [apply selects_front_right; assumption | reflexivity].
      * apply Qltb_true in Hside. apply Qle_bool_false in Hfront.
        exists (Some BackRight).
        split; [apply selects_back_right; assumption | reflexivity].
      * apply Qltb_false in Hside. apply Qle_bool_iff in Hfront.
        exists (Some FrontLeft).
        split; [apply selects_front_left; assumption | reflexivity].
      * apply Qltb_false in Hside. apply Qle_bool_false in Hfront.
        exists (Some BackLeft).
        split; [apply selects_back_left; assumption | reflexivity].
    + assert (N : ~ lit s).
      { intros L. apply Hlit in L as (_ & Hlo & Hhi).
        apply andb_false_iff in Hband as [Hb | Hb];
          apply Qle_bool_false in Hb; unfold relative in Hb; lra. }
      exists None.
      split; [apply selects_none; assumption | reflexivity].
  - apply Qltb_false in Hel.
    assert (N : ~ lit s).
    { intros L. apply Hlit in L as (Hpos & _). lra. }
    exists None.
    split; [apply selects_none; assumption | reflexivity].
Qed.


(** The two side tests differ only at a relative angle of zero, which
    lies outside the counted band. *)
Lemma accumulate_sample_ge_same (acc : ExposureTotals) (s : Sample) :
  accumulate_sample_ge acc s = accumulate_sample acc s.
Proof.
  unfold accumulate_sample_ge, accumulate_sample, SIDE_THRESHOLD.
  set (relative := normalize (s_sun_az s - s_seg_bearing s)).
  destruct (Py.Qltb 0 (s_sun_el s)); [| reflexivity].
  destruct (Qle_bool 30 (Qabs relative) && Qle_bool (Qabs relative) 150)
    eqn:Hband; [| reflexivity].
  apply andb_true_iff in Hband as [Hlo _]. apply Qle_bool_iff in Hlo.
  assert (Hsame : Qle_bool 0 relative = Py.Qltb 0 relative).
  { destruct (Py.Qltb 0 relative) eqn:Hlt.
    - apply Qltb_true in Hlt. apply Qle_bool_iff. lra.
    - apply Qltb_false in Hlt. apply Qle_bool_false.
      destruct (Qlt_le_dec relative 0) as [Hneg | Hnn]; [assumption |].
      exfalso.
      assert (Hz : relative == 0) by lra.
      rewrite Hz in Hlo. vm_compute in Hlo. apply Hlo. reflexivity. }
  rewrite Hsame. reflexivity.
Qed.

End Classification.

(** *** Loops *)

Section Loops.

Lemma for_each_ext {X S : Type} (f g : S -> X -> Py.result S)
    (xs : list X) (acc : S) :
  (forall a x, f a x = g a x) ->
  Py.for_each xs f acc = Py.for_each xs g acc.
Proof.
  intros Hfg. revert acc.
  induction xs as [| x rest IH]; intros acc; simpl; [reflexivity |].
  rewrite Hfg. destruct (g acc x); simpl; [apply IH | reflexivity].
Qed.

Lemma for_each_app {X S : Type} (f : S -> X -> Py.result S)
    (xs ys : list X) (acc : S) :
  Py.for_each (xs ++ ys) f acc
  = Py.bind (Py.for_each xs f acc) (Py.for_each ys f).
Proof.
  revert acc.
  induction xs as [| x rest IH]; intros acc; simpl; [reflexivity |].
  destruct (f acc x); simpl; [apply IH | reflexivity].
Qed.

(** A loop whose body never raises is a left fold. *)
Lemma for_each_pure {X S : Type} (f : S -> X -> Py.result S)
    (step : S -> X -> S) (xs : list X) (acc : S) :
  (forall a x, In x xs -> f a x = Py.Ok (step a x)) ->
  Py.for_each xs f acc = Py.Ok (fold_left step xs acc).
Proof.
  revert acc.
  induction xs as [| x rest IH]; intros acc Hf; simpl; [reflexivity |].
  rewrite Hf by (left; reflexivity). simpl.
  apply IH. intros a y Hy. apply Hf. right. exact Hy.
Qed.

End Loops.

(** *** The guard and the side test of [compute_exposure] *)

Section ExposureGuards.
Context {M : math.lib} {A : astral.sun}.
Local Open Scope Q_scope.

Lemma walk_ext {S : Type} (f g : S -> Sample -> S) (init : S)
    (coords : list coord) (ds : list Q) (total duration : Q)
    (dt : datetime) :
  (forall a s, f a s = g a s) ->
  walk f init coords ds total duration dt
  = walk g init coords ds total duration dt.
Proof.
  intros Hfg. unfold walk.
  rewrite (for_each_ext (seg_body f total duration)
             (seg_body g total duration)); [reflexivity |].
  intros [acc t] [[[lon1 lat1] [lon2 lat2]] d]. unfold seg_body.
  destruct (Py.div d total); simpl; [| reflexivity].
  match goal with
  | |- context [Py.div ?x ?y] => destruct (Py.div x y)
  end; simpl; [| reflexivity].
  match goal with
  | |- context [Py.for_each ?xs (sub_body f ?a ?b ?c ?d ?e ?h) ?acc] =>
      rewrite (for_each_ext (sub_body f a b c d e h)
                 (sub_body g a b c d e h))
  end; [reflexivity |].
  intros acc0 sub. unfold sub_body.
  match goal with
  | |- context [Py.div ?x ?y] => destruct (Py.div x y)
  end; simpl; [| reflexivity].
  rewrite Hfg. reflexivity.
Qed.

(** C10: testing [relative >= 0] instead of [relative > 0] for the
    right side gives the same result on every input, for every solar
    position function. *)
Theorem compute_exposure_ge_same (coords : list coord) (total_duration : Q)
    (dt : datetime) :
  compute_exposure_ge coords total_duration dt
  = compute_exposure coords total_duration dt.
Proof.
  unfold compute_exposure_ge, compute_exposure.
  destruct (measure coords) as [ds total].
  destruct (Qeq_bool total 0); [reflexivity |].
  apply walk_ext. exact accumulate_sample_ge_same.
Qed.

(** C4: a route of total distance zero gives four zero totals and
    raises nothing, whatever the duration and departure time. *)
Theorem compute_exposure_zero_distance (coords : list coord)
    (total_duration : Q) (dt : datetime) :
  total_distance coords == 0 ->
  compute_exposure coords total_duration dt = Py.Ok zero_totals.
Proof.
  unfold total_distance, compute_exposure.
  destruct (measure coords) as [ds total]. simpl.
  intros H. apply Qeq_bool_iff in H. rewrite H. reflexivity.
Qed.

(** Without the guard the first segment would divide by zero. *)
Remark walk_zero_distance_raises {S : Type} (f : S -> Sample -> S)
    (init : S) (coords : list coord) (ds : list Q) (total duration : Q)
    (dt : datetime) :
  total == 0 ->
  combine (segments coords) ds <> [] ->
  walk f init coords ds total duration dt = Py.Raise Py.ZeroDivisionError.
Proof.
  intros Hz Hne. unfold walk.
  destruct (combine (segments coords) ds) as [| [seg d] rest];
    [contradiction |].
  simpl. rewrite (div_zero d total Hz). reflexivity.
Qed.

(** C9: a route of fewer than two points gives four zero totals and
    raises nothing. *)
Theorem compute_exposure_short_route (coords : list coord)
    (total_duration : Q) (dt : datetime) :
  (length coords < 2)%nat ->
  compute_exposure coords total_duration dt = Py.Ok zero_totals.
Proof.
  intros Hlen.
  destruct coords as [| p1 [| p2 rest]]; simpl in Hlen;
    [reflexivity | reflexivity | lia].
Qed.

End ExposureGuards.

(** C4 on the route made of the point (77 E, 13 N) twice, one hour. *)
Lemma compute_exposure_zero_distance_witness :
  @compute_exposure Rational.math_lib (Rational.fixed_sun 120 45)
    [(77, 13); (77, 13)]%Q 3600%Q 0%Z
  = Py.Ok zero_totals.
Proof.
  apply (@compute_exposure_zero_distance Rational.math_lib
           (Rational.fixed_sun 120 45)).
  vm_compute. reflexivity.
Defined.

(** C9 on the route of one point. *)
Lemma compute_exposure_short_route_witness :
  @compute_exposure Rational.math_lib (Rational.fixed_sun 120 45)
    [(77, 13)]%Q 3600%Q 0%Z
  = Py.Ok zero_totals.
Proof.
  apply (@compute_exposure_short_route Rational.math_lib
           (Rational.fixed_sun 120 45)).
  simpl. lia.
Defined.

(** *** The walk as a fold over its samples *)

Section WalkSamples.
Context {M : math.lib} {A : astral.sun}.
Local Open Scope Q_scope.

Lemma fold_left_map_step {X Y S : Type} (f : S -> Y -> S) (g : X -> Y)
    (xs : list X) (acc : S) :
  fold_left f (map g xs) acc = fold_left (fun a x => f a (g x)) xs acc.
Proof.
  revert acc. induction xs as [| x rest IH]; intros acc; simpl;
    [reflexivity | apply IH].
Qed.

Lemma n_sub_positive (d : Q) :
  (1 <= Z.max 1 (Py.ceil (d / SAMPLE_INTERVAL_KM)))%Z.
Proof. apply Z.le_max_l. Qed.

Lemma inject_Z_nonzero (n : Z) : (1 <= n)%Z -> ~ inject_Z n == 0.
Proof.
  intros Hn Hz. unfold Qeq in Hz. simpl in Hz. lia.
Qed.

Lemma seg_body_samples {S : Type} (f : S -> Sample -> S)
    (total duration : Q) (acc : S) (t : datetime)
    (item : (coord * coord) * Q) :
  ~ total == 0 ->
  seg_body f total duration (acc, t) item
  = Py.Ok (fold_left f (segment_samples total duration t item) acc,
           (t + timedelta (segment_time total duration item))%Z).
Proof.
  intros Htotal.
  destruct item as [[[lon1 lat1] [lon2 lat2]] d].
  unfold seg_body, segment_samples, segment_time. simpl fst. simpl snd.
  rewrite (div_ok d total Htotal). simpl.
  set (n := Z.max 1 (Py.ceil (d / SAMPLE_INTERVAL_KM))).
  assert (Hn : ~ inject_Z n == 0)
    by (apply inject_Z_nonzero, n_sub_positive).
  rewrite (div_ok _ _ Hn). simpl.
  rewrite fold_left_map_step.
  erewrite for_each_pure; [reflexivity |].
  intros a sub _. unfold sub_body.
  rewrite (div_ok _ _ Hn). reflexivity.
Qed.

Lemma for_each_seg_body_samples {S : Type} (f : S -> Sample -> S)
    (total duration : Q) (items : list ((coord * coord) * Q))
    (acc : S) (t : datetime) :
  ~ total == 0 ->
  Py.for_each items (seg_body f total duration) (acc, t)
  = Py.Ok (fold_left f (samples_from total duration t items) acc,
           clock_after total duration t items).
Proof.
  intros Htotal. revert acc t.
  induction items as [| item rest IH]; intros acc t;
    cbn [Py.for_each samples_from clock_after]; [reflexivity |].
  rewrite seg_body_samples by assumption. cbn [Py.bind].
  rewrite IH. rewrite fold_left_app. reflexivity.
Qed.

Lemma walk_samples {S : Type} (f : S -> Sample -> S) (init : S)
    (coords : list coord) (ds : list Q) (total duration : Q)
    (dt : datetime) :
  ~ total == 0 ->
  walk f init coords ds total duration dt
  = Py.Ok (fold_left f
             (samples_from total duration dt
                (combine (segments coords) ds))
             init).
Proof.
  intros Htotal. unfold walk.
  rewrite for_each_seg_body_samples by assumption. reflexivity.
Qed.

Lemma fold_left_snoc {X : Type} (l acc : list X) :
  fold_left (fun visited s => visited ++ [s]) l acc = acc ++ l.
Proof.
  revert acc. induction l as [| x rest IH]; intros acc; simpl.
  - rewrite app_nil_r. reflexivity.
  - rewrite IH, <- app_assoc. reflexivity.
Qed.

End WalkSamples.

(** *** Time covered by the samples *)

Section SampleTime.
Context {M : math.lib} {A : astral.sun}.
Local Open Scope Q_scope.

Lemma sample_at_time (seg : coord * coord) (b st sub : Q) (t : datetime)
    (f : Q) :
  s_sub_time_s (sample_at seg b st sub t f) = sub.
Proof. destruct seg as [[lon1 lat1] [lon2 lat2]]. reflexivity. Qed.

Lemma length_range (n : Z) : length (Py.range n) = Z.to_nat n.
Proof. unfold Py.range. rewrite length_map, length_seq. reflexivity. Qed.

Lemma segment_samples_nonneg (total duration : Q) (t : datetime)
    (item : (coord * coord) * Q) :
  0 < total -> 0 <= duration -> 0 <= snd item ->
  Forall (fun s => 0 <= s_sub_time_s s)
    (segment_samples total duration t item).
Proof.
  intros Htotal Hdur Hd. unfold segment_samples.
  apply Forall_map, Forall_forall. intros sub _.
  rewrite sample_at_time.
  set (n := Z.max 1 (Py.ceil (snd item / SAMPLE_INTERVAL_KM))).
  assert (Hn1 : (1 <= n)%Z) by apply n_sub_positive.
  assert (Hn : 0 < inject_Z n).
  { change 0 with (inject_Z 0). rewrite <- Zlt_Qlt. lia. }
  apply Qle_shift_div_l; [exact Hn |].
  unfold segment_time.
  assert (Hshare : 0 <= snd item / total)
    by (apply Qle_shift_div_l; [exact Htotal | lra]).
  nra.
Qed.

Lemma samples_from_nonneg (total duration : Q) (t : datetime)
    (items : list ((coord * coord) * Q)) :
  0 < total -> 0 <= duration ->
  Forall (fun it => 0 <= snd it) items ->
  Forall (fun s => 0 <= s_sub_time_s s)
    (samples_from total duration t items).
Proof.
  intros Htotal Hdur Hitems. revert t.
  induction Hitems as [| item rest Hd _ IH]; intros t;
    cbn [samples_from]; [constructor |].
  apply Forall_app. split;
    [apply segment_samples_nonneg; assumption | apply IH].
Qed.

End SampleTime.

(** *** The rational library satisfies the laws *)

Section RationalLaws.
Local Open Scope Q_scope.

Lemma atan_unit_denominator (t : Q) : 1 <= 1 + (9 # 32) * t ^ 2.
Proof.
  assert (H : 0 <= t ^ 2) by (simpl; nra).
  lra.
Qed.

Lemma atan_unit_nonneg (t : Q) : 0 <= t -> 0 <= Rational.atan_unit t.
Proof.
  intros Ht. unfold Rational.atan_unit.
  pose proof (atan_unit_denominator t) as Hd.
  apply Qle_shift_div_l; lra.
Qed.

Lemma atan_unit_le_1 (t : Q) : t <= 1 -> Rational.atan_unit t <= 1.
Proof.
  intros Ht. unfold Rational.atan_unit.
  pose proof (atan_unit_denominator t) as Hd.
  apply Qle_shift_div_r; lra.
Qed.

Lemma atan_unit_ge_m1 (t : Q) : -1 <= t -> -1 <= Rational.atan_unit t.
Proof.
  intros Ht. unfold Rational.atan_unit.
  pose proof (atan_unit_denominator t) as Hd.
  apply Qle_shift_div_l; lra.
Qed.

Lemma Qabs_bounds (x b : Q) : Qabs x <= b -> - b <= x /\ x <= b.
Proof. intros H. apply Qabs_Qle_condition in H. exact H. Qed.

Lemma rational_sqrt_nonneg (x : Q) : 0 <= Rational.sqrt x.
Proof.
  unfold Rational.sqrt.
  apply Qle_shift_div_l; [reflexivity |].
  change (0 * 1000000) with (inject_Z 0). rewrite <- Zle_Qle.
  apply Z.sqrt_nonneg.
Qed.

Lemma rational_atan2_nonneg (y x : Q) : 0 <= y -> 0 <= Rational.atan2 y x.
Proof.
  intros Hy. unfold Rational.atan2, Rational.pi.
  destruct (Qeq_bool y 0 && Qeq_bool x 0) eqn:Hzero; [lra |].
  assert (Hnz : ~ (y == 0 /\ x == 0)).
  { intros [H1 H2]. apply Qeq_bool_iff in H1. apply Qeq_bool_iff in H2.
    rewrite H1, H2 in Hzero. discriminate. }
  assert (Habs : Qabs y == y) by (apply Qabs_pos; exact Hy).
  destruct (Qle_bool (Qabs y) x) eqn:Hright.
  { apply Qle_bool_iff in Hright. rewrite Habs in Hright.
    apply atan_unit_nonneg. unfold Qdiv.
    apply Qmult_le_0_compat; [exact Hy |].
    apply Qinv_le_0_compat. lra. }
  apply Qle_bool_false in Hright. rewrite Habs in Hright.
  destruct (Qle_bool (Qabs x) y) eqn:Htop.
  { apply Qle_bool_iff in Htop. apply Qabs_bounds in Htop as [Hlo Hhi].
    assert (Hypos : 0 < y).
    { destruct (Qlt_le_dec 0 y) as [Hp | Hn]; [exact Hp |].
      exfalso. apply Hnz. split; lra. }
    assert (Hq : x / y <= 1) by (apply Qle_shift_div_r; lra).
    pose proof (atan_unit_le_1 _ Hq) as Hb.
    unfold Qdiv at 1. change (/ 2) with (1 # 2). lra. }
  apply Qle_bool_false in Htop.
  destruct (Qle_bool (Qabs y) (- x)) eqn:Hleft.
  { apply Qle_bool_iff in Hleft. rewrite Habs in Hleft.
    assert (Hy0 : Qle_bool 0 y = true) by (apply Qle_bool_iff; exact Hy).
    rewrite Hy0.
    assert (Hxneg : x < 0) by lra.
    assert (Hq : -1 <= y / x).
    { assert (Hflip : y / x == - (y / - x)) by (field; lra).
      assert (Hr : y / - x <= 1) by (apply Qle_shift_div_r; lra).
      rewrite Hflip. lra. }
    pose proof (atan_unit_ge_m1 _ Hq) as Hb. lra. }
  apply Qle_bool_false in Hleft. rewrite Habs in Hleft.
  exfalso.
  destruct (Qlt_le_dec x 0) as [Hneg | Hpos].
  - rewrite (Qabs_neg x) in Htop by lra. lra.
  - rewrite (Qabs_pos x) in Htop by lra. lra.
Qed.

Lemma rational_math_laws : math.laws Rational.math_lib.
Proof.
  split.
  - exact rational_sqrt_nonneg.
  - exact rational_atan2_nonneg.
Qed.

End RationalLaws.

(** *** Segment lengths and the total distance *)

Section Distances.
Context {M : math.lib} {A : astral.sun}.
Local Open Scope Q_scope.

Lemma haversine_nonneg {L : math.laws M} (lat1 lon1 lat2 lon2 : Q) :
  0 <= haversine lat1 lon1 lat2 lon2.
Proof.
  unfold haversine.
  apply Qmult_le_0_compat; [lra |].
  apply math.atan2_nonneg, math.sqrt_nonneg.
Qed.

Lemma segment_distance_nonneg {L : math.laws M} (seg : coord * coord) :
  0 <= segment_distance seg.
Proof.
  destruct seg as [[lon1 lat1] [lon2 lat2]]. apply haversine_nonneg.
Qed.

Lemma measure_fold (segs : list (coord * coord)) (ds : list Q) (t : Q) :
  fold_left
    (fun '(segment_distances, total) seg =>
       let d := segment_distance seg in
       (segment_distances ++ [d], total + d))
    segs (ds, t)
  = (ds ++ map segment_distance segs,
     fold_left (fun total seg => total + segment_distance seg) segs t).
Proof.
  revert ds t. induction segs as [| seg rest IH]; intros ds t; simpl.
  - rewrite app_nil_r. reflexivity.
  - rewrite IH, <- app_assoc. reflexivity.
Qed.

Lemma measure_distances (coords : list coord) :
  measure coords
  = (map segment_distance (segments coords), total_distance coords).
Proof.
  unfold total_distance, measure. rewrite measure_fold. reflexivity.
Qed.

Lemma fold_left_distance (segs : list (coord * coord)) (t : Q) :
  fold_left (fun total seg => total + segment_distance seg) segs t
  == t + sum_dist (combine segs (map segment_distance segs)).
Proof.
  revert t. induction segs as [| seg rest IH]; intros t;
    cbn [fold_left map combine sum_dist fold_right snd].
  - ring.
  - fold (sum_dist (combine rest (map segment_distance rest))).
    rewrite IH. ring.
Qed.

Lemma total_distance_sum (coords : list coord) :
  total_distance coords
  == sum_dist (combine (segments coords)
                 (map segment_distance (segments coords))).
Proof.
  unfold total_distance, measure. rewrite measure_fold. cbn [snd].
  rewrite fold_left_distance. ring.
Qed.

Lemma items_nonneg {L : math.laws M} (segs : list (coord * coord)) :
  Forall (fun it => 0 <= snd it)
    (combine segs (map segment_distance segs)).
Proof.
  induction segs as [| seg rest IH]; simpl; constructor;
    [apply segment_distance_nonneg | exact IH].
Qed.

End Distances.

(** *** Rounding *)

Section Rounding.
Local Open Scope Q_scope.

Lemma round_half_even_lower (k : Z) (x : Q) :
  inject_Z k <= x -> (k <= Py.round_half_even x)%Z.
Proof.
  intros H. apply Qfloor_resp_le in H. rewrite Qfloor_Z in H.
  unfold Py.round_half_even.
  destruct (Py.Qltb _ _); [lia |].
  destruct (Py.Qltb _ _); [lia |].
  destruct (Z.even _); lia.
Qed.

Lemma round_half_even_upper (k : Z) (x : Q) :
  x <= inject_Z k -> (Py.round_half_even x <= k)%Z.
Proof.
  intros H.
  assert (Hf : (Qfloor x <= k)%Z).
  { apply Qfloor_resp_le in H. rewrite Qfloor_Z in H. exact H. }
  unfold Py.round_half_even.
  destruct (Py.Qltb (x - inject_Z (Qfloor x)) (1 # 2)) eqn:Hlow;
    [exact Hf |].
  apply Qltb_false in Hlow.
  assert (Hlt : (Qfloor x < k)%Z).
  { rewrite Zlt_Qlt. lra. }
  destruct (Py.Qltb _ _); [lia |].
  destruct (Z.even _); lia.
Qed.

Lemma scale_positive (ndigits : nat) :
  0 < inject_Z (10 ^ Z.of_nat ndigits).
Proof.
  change 0 with (inject_Z 0). rewrite <- Zlt_Qlt.
  apply Z.pow_pos_nonneg; lia.
Qed.

Lemma round_lower (k : Z) (x : Q) (ndigits : nat) :
  inject_Z k / inject_Z (10 ^ Z.of_nat ndigits) <= x ->
  inject_Z k / inject_Z (10 ^ Z.of_nat ndigits) <= Py.round x ndigits.
Proof.
  intros H. unfold Py.round.
  pose proof (scale_positive ndigits) as Hs.
  set (s := inject_Z (10 ^ Z.of_nat ndigits)) in *.
  apply Qle_shift_div_l; [exact Hs |].
  assert (Hk : inject_Z k / s * s == inject_Z k) by (field; lra).
  rewrite Hk. rewrite <- Zle_Qle.
  apply round_half_even_lower.
  rewrite <- Hk. apply Qmult_le_compat_r; lra.
Qed.

Lemma round_upper (k : Z) (x : Q) (ndigits : nat) :
  x <= inject_Z k / inject_Z (10 ^ Z.of_nat ndigits) ->
  Py.round x ndigits <= inject_Z k / inject_Z (10 ^ Z.of_nat ndigits).
Proof.
  intros H. unfold Py.round.
  pose proof (scale_positive ndigits) as Hs.
  set (s := inject_Z (10 ^ Z.of_nat ndigits)) in *.
  apply Qle_shift_div_r; [exact Hs |].
  assert (Hk : inject_Z k / s * s == inject_Z k) by (field; lra).
  rewrite Hk. rewrite <- Zle_Qle.
  apply round_half_even_upper.
  rewrite <- Hk. apply Qmult_le_compat_r; lra.
Qed.

Lemma round_nonneg (x : Q) (ndigits : nat) :
  0 <= x -> 0 <= Py.round x ndigits.
Proof.
  intros H. pose proof (round_lower 0 x ndigits) as Hr.
  unfold Qdiv in Hr. change (inject_Z 0) with 0 in Hr.
  rewrite Qmult_0_l in Hr. apply Hr. exact H.
Qed.

Lemma round_nonpos (x : Q) (ndigits : nat) :
  x <= 0 -> Py.round x ndigits <= 0.
Proof.
  intros H. pose proof (round_upper 0 x ndigits) as Hr.
  unfold Qdiv in Hr. change (inject_Z 0) with 0 in Hr.
  rewrite Qmult_0_l in Hr. apply Hr. exact H.
Qed.

Lemma scale_ratio_one (ndigits : nat) :
  inject_Z (10 ^ Z.of_nat ndigits) / inject_Z (10 ^ Z.of_nat ndigits) == 1.
Proof. pose proof (scale_positive ndigits). field. lra. Qed.

Lemma round_le_1 (x : Q) (ndigits : nat) :
  x <= 1 -> Py.round x ndigits <= 1.
Proof.
  intros H.
  pose proof (round_upper (10 ^ Z.of_nat ndigits) x ndigits) as Hr.
  rewrite scale_ratio_one in Hr. apply Hr. exact H.
Qed.

Lemma round_ge_1 (x : Q) (ndigits : nat) :
  1 <= x -> 1 <= Py.round x ndigits.
Proof.
  intros H.
  pose proof (round_lower (10 ^ Z.of_nat ndigits) x ndigits) as Hr.
  rewrite scale_ratio_one in Hr. apply Hr. exact H.
Qed.

End Rounding.

(** *** Seat allocator *)

Section SeatFacts.
Local Open Scope Q_scope.

(** A loop whose body keeps an invariant and never raises under it. *)
Lemma for_each_invariant {X S : Type} (I : S -> Prop)
    (f : S -> X -> Py.result S) (xs : list X) (acc : S) :
  I acc ->
  (forall a x, In x xs -> I a -> exists a', f a x = Py.Ok a' /\ I a') ->
  exists r, Py.for_each xs f acc = Py.Ok r /\ I r.
Proof.
  revert acc. induction xs as [| x rest IH]; intros acc Hacc Hstep.
  - exists acc. split; [reflexivity | exact Hacc].
  - destruct (Hstep acc x (or_introl eq_refl) Hacc) as (a' & Hf & Ha').
    cbn [Py.for_each]. rewrite Hf. cbn [Py.bind].
    apply IH; [exact Ha' |].
    intros a y Hy. apply Hstep. right. exact Hy.
Qed.

Lemma max_default_fold_ge (xs : list Q) (m : Q) :
  m <= fold_left (fun m y => if Py.Qltb m y then y else m) xs m
  /\ Forall (fun x =>
               x <= fold_left (fun m y => if Py.Qltb m y then y else m)
                      xs m) xs.
Proof.
  revert m. induction xs as [| x rest IH]; intros m; cbn [fold_left].
  - split; [lra | constructor].
  - destruct (Py.Qltb m x) eqn:E.
    + apply Qltb_true in E. destruct (IH x) as [H1 H2].
      split; [lra |]. constructor; assumption.
    + apply Qltb_false in E. destruct (IH m) as [H1 H2].
      split; [exact H1 |]. constructor; [lra | exact H2].
Qed.

Lemma max_default_fold_in (xs : list Q) (m : Q) :
  let r := fold_left (fun m y => if Py.Qltb m y then y else m) xs m in
  r = m \/ In r xs.
Proof.
  revert m. induction xs as [| x rest IH]; intros m; cbn [fold_left].
  - left. reflexivity.
  - destruct (Py.Qltb m x).
    + destruct (IH x) as [H | H]; right; [left; symmetry; exact H |
                                          right; exact H].
    + destruct (IH m) as [H | H]; [left; exact H | right; right; exact H].
Qed.

Lemma max_default_ge (xs : list Q) (d : Q) :
  Forall (fun x => x <= max_default xs d) xs.
Proof.
  destruct xs as [| x rest]; [constructor |].
  unfold max_default.
  destruct (max_default_fold_ge rest x) as [H1 H2].
  constructor; assumption.
Qed.

Lemma max_default_in (xs : list Q) (d : Q) :
  xs <> [] -> In (max_default xs d) xs.
Proof.
  destruct xs as [| x rest]; [congruence |]. intros _.
  unfold max_default.
  destruct (max_default_fold_in rest x) as [H | H];
    [left; symmetry; exact H | right; exact H].
Qed.

Lemma in_range2 (a b r : Z) :
  In r (Py.range2 a b) -> (a <= r < b)%Z.
Proof.
  unfold Py.range2. intros H. apply in_map_iff in H as (k & <- & Hk).
  apply in_seq in Hk. lia.
Qed.

(** The base of one side of a row is not negative. *)
Lemma base_nonneg (total_rows r : Z) (front back : Q) :
  (1 <= r <= total_rows)%Z -> 0 <= front -> 0 <= back ->
  0 <= inject_Z (total_rows - r) / inject_Z total_rows * front
       + inject_Z r / inject_Z total_rows * back.
Proof.
  intros Hr Hf Hb.
  assert (Ht : 0 < inject_Z total_rows).
  { change 0 with (inject_Z 0). rewrite <- Zlt_Qlt. lia. }
  assert (Hw1 : 0 <= inject_Z (total_rows - r) / inject_Z total_rows).
  { apply Qle_shift_div_l; [exact Ht |]. rewrite Qmult_0_l.
    change 0 with (inject_Z 0). rewrite <- Zle_Qle. lia. }
  assert (Hw2 : 0 <= inject_Z r / inject_Z total_rows).
  { apply Qle_shift_div_l; [exact Ht |]. rewrite Qmult_0_l.
    change 0 with (inject_Z 0). rewrite <- Zle_Qle. lia. }
  nra.
Qed.

Lemma row_seats_nonneg (exposure : ExposureTotals) (total_rows r : Z) :
  nonneg_totals exposure ->
  (1 <= r <= total_rows)%Z ->
  exists added,
    row_seats exposure total_rows r = Py.Ok added
    /\ Forall (fun e => 0 <= e_exposure_minutes e) added.
Proof.
  intros (Hfl & Hbl & Hfr & Hbr) Hr.
  assert (Ht : ~ inject_Z total_rows == 0)
    by (apply inject_Z_nonzero; lia).
  unfold row_seats. rewrite !(div_ok _ _ Ht). cbn [mbind result_bind Py.bind].
  eexists. split; [reflexivity |].
  pose proof (base_nonneg total_rows r _ _ Hr Hfl Hbl) as Hleft.
  pose proof (base_nonneg total_rows r _ _ Hr Hfr Hbr) as Hright.
  repeat constructor; cbn [e_exposure_minutes];
    apply round_nonneg; nra.
Qed.

Lemma row_seats_zero (exposure : ExposureTotals) (total_rows r : Z) :
  all_zero_totals exposure ->
  (1 <= r <= total_rows)%Z ->
  exists added,
    row_seats exposure total_rows r = Py.Ok added
    /\ Forall (fun e => e_exposure_minutes e == 0) added.
Proof.
  intros (Hfl & Hbl & Hfr & Hbr) Hr.
  assert (Ht : ~ inject_Z total_rows == 0)
    by (apply inject_Z_nonzero; lia).
  unfold row_seats. rewrite !(div_ok _ _ Ht). cbn [mbind result_bind Py.bind].
  eexists. split; [reflexivity |].
  repeat constructor; cbn [e_exposure_minutes];
    (apply Qle_antisym; [apply round_nonpos | apply round_nonneg]);
    rewrite ?Hfl, ?Hbl, ?Hfr, ?Hbr; lra.
Qed.

(** The first loop under a property that every row's seats have. *)
Lemma rows_loop (P : SeatEntry -> Prop) (exposure : ExposureTotals)
    (total_rows : Z) :
  (forall r, (1 <= r <= total_rows)%Z ->
     exists added, row_seats exposure total_rows r = Py.Ok added
                   /\ Forall P added) ->
  exists entries,
    Py.for_each (Py.range2 1 (total_rows + 1))
      (fun seats r =>
         added ← row_seats exposure total_rows r; Py.Ok (seats ++ added))
      []
    = Py.Ok entries
    /\ Forall P entries.
Proof.
  intros Hrow.
  apply (for_each_invariant (Forall P)); [constructor |].
  intros seats r Hin Hseats. apply in_range2 in Hin.
  destruct (Hrow r) as (added & Hadded & HP); [lia |].
  exists (seats ++ added). rewrite Hadded.
  split; [reflexivity |]. apply Forall_app. split; assumption.
Qed.

Lemma with_ratio_rated (max_exp : Q) (e : SeatEntry) :
  with_ratio max_exp e = Py.Ok (rated max_exp e).
Proof.
  unfold with_ratio, rated.
  destruct (Py.Qltb 0 max_exp) eqn:E; [| reflexivity].
  apply Qltb_true in E.
  rewrite div_ok by lra. reflexivity.
Qed.

Lemma ratio_loop (max_exp : Q) (entries : list SeatEntry)
    (out : list Seat) :
  Py.for_each entries
    (fun out e => seat ← with_ratio max_exp e; Py.Ok (out ++ [seat])) out
  = Py.Ok (out ++ map (rated max_exp) entries).
Proof.
  revert out. induction entries as [| e rest IH]; intros out;
    cbn [Py.for_each map].
  - rewrite app_nil_r. reflexivity.
  - rewrite with_ratio_rated. cbn [mbind result_bind Py.bind].
    rewrite IH, <- app_assoc. reflexivity.
Qed.

(** [build_seat_list] once its first loop is known. *)
Lemma build_seat_list_rated (exposure : ExposureTotals) (total_rows : Z)
    (entries : list SeatEntry) :
  Py.for_each (Py.range2 1 (total_rows + 1))
    (fun seats r =>
       added ← row_seats exposure total_rows r; Py.Ok (seats ++ added))
    []
  = Py.Ok entries ->
  build_seat_list exposure total_rows
  = Py.Ok (map (rated (max_default (map e_exposure_minutes entries) 0))
             entries).
Proof.
  intros H. unfold build_seat_list. rewrite H.
  cbn [mbind result_bind Py.bind]. apply ratio_loop.
Qed.

End SeatFacts.

Section SeatRatios.
Local Open Scope Q_scope.

Lemma rated_ratio_range (mx : Q) (e : SeatEntry) :
  0 <= e_exposure_minutes e -> e_exposure_minutes e <= mx ->
  0 <= exposure_ratio (rated mx e) /\ exposure_ratio (rated mx e) <= 1.
Proof.
  intros Hlo Hhi. unfold rated. cbn [exposure_ratio].
  destruct (Py.Qltb 0 mx) eqn:E; [| split; lra].
  apply Qltb_true in E.
  split.
  - apply round_nonneg. apply Qle_shift_div_l; lra.
  - apply round_le_1. apply Qle_shift_div_r; lra.
Qed.

Lemma rated_ratio_one (mx : Q) (e : SeatEntry) :
  0 < mx -> e_exposure_minutes e <= mx -> mx <= e_exposure_minutes e ->
  exposure_ratio (rated mx e) == 1.
Proof.
  intros Hpos Hle Hge. unfold rated. cbn [exposure_ratio].
  apply Qltb_true in Hpos as Hb. rewrite Hb.
  apply Qle_antisym.
  - apply round_le_1. apply Qle_shift_div_r; lra.
  - apply round_ge_1. apply Qle_shift_div_l; lra.
Qed.

(** C6, as the code has it: for totals none of which is negative the
    call returns a list in which every ratio lies between 0 and 1;
    if some seat has positive exposure minutes then every seat whose
    exposure minutes are the largest has ratio 1, and there is one;
    if all four totals are zero every ratio is 0. *)
Theorem build_seat_list_ratios (exposure : ExposureTotals)
    (total_rows : Z) :
  nonneg_totals exposure ->
  exists seats,
    build_seat_list exposure total_rows = Py.Ok seats
    /\ Forall (fun s => 0 <= exposure_ratio s /\ exposure_ratio s <= 1)
         seats
    /\ (Exists (fun s => 0 < exposure_minutes s) seats ->
        Exists (fun s => exposure_ratio s == 1) seats
        /\ forall s, In s seats ->
             Forall (fun s' => exposure_minutes s' <= exposure_minutes s)
               seats ->
             exposure_ratio s == 1)
    /\ (all_zero_totals exposure ->
        Forall (fun s => exposure_ratio s == 0) seats).
Proof.
  intros Hnn.
  destruct (rows_loop (fun e => 0 <= e_exposure_minutes e) exposure
              total_rows) as (entries & Hrows & Hentries).
  { intros r Hr. apply row_seats_nonneg; assumption. }
  pose proof (build_seat_list_rated _ _ _ Hrows) as Hbuild.
  set (mx := max_default (map e_exposure_minutes entries) 0) in *.
  pose proof (max_default_ge (map e_exposure_minutes entries) 0) as Hmax.
  fold mx in Hmax. rewrite List.Forall_map in Hmax.
  rewrite List.Forall_forall in Hmax, Hentries.
  exists (map (rated mx) entries).
  split; [exact Hbuild |].
  split; [| split].
  - apply List.Forall_map, List.Forall_forall. intros e He.
    apply rated_ratio_range; [apply Hentries | apply Hmax]; exact He.
  - intros Hex. apply List.Exists_exists in Hex as (s & Hs & Hspos).
    apply in_map_iff in Hs as (e & <- & He). cbn [rated exposure_minutes] in Hspos.
    assert (Hmxpos : 0 < mx).
    { pose proof (Hmax e He) as H. cbn beta in H. lra. }
    assert (Hin : In mx (map e_exposure_minutes entries)).
    { apply max_default_in. destruct entries; [contradiction | discriminate]. }
    apply in_map_iff in Hin as (top & Htop & Htopin).
    split.
    + apply List.Exists_exists. exists (rated mx top).
      split; [apply in_map; exact Htopin |].
      apply rated_ratio_one; [exact Hmxpos | |]; rewrite Htop; lra.
    + intros s Hs Hlargest.
      apply in_map_iff in Hs as (e' & <- & He').
      rewrite List.Forall_forall in Hlargest.
      pose proof (Hlargest (rated mx top) (in_map _ _ _ Htopin)) as Hcmp.
      cbn [rated exposure_minutes] in Hcmp. rewrite Htop in Hcmp.
      apply rated_ratio_one; [exact Hmxpos | | exact Hcmp].
      apply (Hmax e' He').
  - intros Hzero.
    destruct (rows_loop (fun e => e_exposure_minutes e == 0) exposure
                total_rows) as (entries' & Hrows' & Hzeros).
    { intros r Hr. apply row_seats_zero; assumption. }
    rewrite Hrows in Hrows'. injection Hrows' as <-.
    rewrite List.Forall_forall in Hzeros.
    assert (Hmx : mx <= 0).
    { destruct entries as [| e0 rest] eqn:Eentries.
      - unfold mx. cbn. lra.
      - assert (Hin : In mx (map e_exposure_minutes entries)).
        { subst entries. apply max_default_in. discriminate. }
        rewrite Eentries in Hin.
        apply in_map_iff in Hin as (top & Htop & Htopin).
        rewrite <- Htop. rewrite (Hzeros top Htopin). lra. }
    apply List.Forall_map, List.Forall_forall. intros e He.
    unfold rated. cbn [exposure_ratio].
    apply Qltb_false in Hmx. rewrite Hmx. reflexivity.
Qed.

End SeatRatios.

(** C6 on the totals 60, 0, 30, 0 and twelve rows. *)
Lemma build_seat_list_ratios_witness :
  exists seats,
    build_seat_list
      {| front_left := 60; back_left := 0;
         front_right := 30; back_right := 0 |} 12
    = Py.Ok seats
    /\ Forall (fun s => (0 <= exposure_ratio s /\ exposure_ratio s <= 1)%Q)
         seats
    /\ (Exists (fun s => (0 < exposure_minutes s)%Q) seats ->
        Exists (fun s => (exposure_ratio s == 1)%Q) seats
        /\ forall s, In s seats ->
             Forall (fun s' => (exposure_minutes s' <= exposure_minutes s)%Q)
               seats ->
             (exposure_ratio s == 1)%Q)
    /\ (all_zero_totals
          {| front_left := 60; back_left := 0;
             front_right := 30; back_right := 0 |} ->
        Forall (fun s => (exposure_ratio s == 0)%Q) seats).
Proof.
  apply build_seat_list_ratios.
  unfold nonneg_totals. cbn. repeat split; discriminate.
Defined.

(** C6 fails as stated: with 60 minutes on the front left and on the
    front right, the two window seats of row 1 both have ratio 1. *)
Lemma build_seat_list_two_seats_at_one :
  exists seats l1a r1c,
    nonneg_totals {| front_left := 60; back_left := 0;
                     front_right := 60; back_right := 0 |}
    /\ ~ all_zero_totals {| front_left := 60; back_left := 0;
                            front_right := 60; back_right := 0 |}
    /\ build_seat_list
         {| front_left := 60; back_left := 0;
            front_right := 60; back_right := 0 |} 12
       = Py.Ok seats
    /\ count_ratio_one seats = 2%nat
    /\ find_seat "L1A" seats = Some l1a
    /\ find_seat "R1C" seats = Some r1c
    /\ (exposure_ratio l1a == 1)%Q
    /\ (exposure_ratio r1c == 1)%Q.
Proof.
  eexists. eexists. eexists.
  split; [unfold nonneg_totals; cbn; repeat split; discriminate |].
  split; [intros (H & _); vm_compute in H; discriminate H |].
  split; [vm_compute; reflexivity |].
  split; [vm_compute; reflexivity |].
  split; [vm_compute; reflexivity |].
  split; [vm_compute; reflexivity |].
  split; vm_compute; reflexivity.
Defined.

(** C6, the other way: totals too small to survive the rounding to two
    decimals leave no seat at ratio 1. *)
Remark build_seat_list_no_seat_at_one :
  exists seats,
    build_seat_list
      {| front_left := 1 # 1000; back_left := 0;
         front_right := 0; back_right := 0 |} 12
    = Py.Ok seats
    /\ count_ratio_one seats = 0%nat.
Proof.
  eexists. split; vm_compute; reflexivity.
Qed.

(** *** The front-left scenario *)

Section Scenario.
Local Open Scope Q_scope.

Lemma right_seats_zero_check (seats : list Seat) :
  forallb (fun s => match side s with
                    | RIGHT => Qeq_bool (exposure_minutes s) 0
                    | LEFT => true
                    end) seats = true ->
  Forall (fun s => side s = RIGHT -> exposure_minutes s == 0) seats.
Proof.
  intros H. apply List.Forall_forall. intros s Hs Hside.
  rewrite forallb_forall in H. specialize (H s Hs).
  rewrite Hside in H. apply Qeq_bool_iff. exact H.
Qed.

(** C2, as the code has it: for 60 front-left minutes and twelve rows,
    row 1 has front weight 11/12, so L1A gets 55.00 minutes and L1B
    13.75; L12A gets 0.00, every seat of the right side 0, L1A has
    ratio 1.0 and L1B ratio 0.25. *)
Theorem build_seat_list_front_left_scenario :
  exists seats l1a l1b l12a,
    build_seat_list
      {| front_left := 60; back_left := 0;
         front_right := 0; back_right := 0 |} TOTAL_ROWS
    = Py.Ok seats
    /\ find_seat "L1A" seats = Some l1a
    /\ find_seat "L1B" seats = Some l1b
    /\ find_seat "L12A" seats = Some l12a
    /\ exposure_minutes l1a == 55
    /\ exposure_minutes l1b == 1375 # 100
    /\ exposure_minutes l12a == 0
    /\ Forall (fun s => side s = RIGHT -> exposure_minutes s == 0) seats
    /\ exposure_ratio l1a == 1
    /\ exposure_ratio l1b == 1 # 4.
Proof.
  eexists. eexists. eexists. eexists.
  split; [vm_compute; reflexivity |].
  split; [vm_compute; reflexivity |].
  split; [vm_compute; reflexivity |].
  split; [vm_compute; reflexivity |].
  split; [vm_compute; reflexivity |].
  split; [vm_compute; reflexivity |].
  split; [vm_compute; reflexivity |].
  split; [apply right_seats_zero_check; vm_compute; reflexivity |].
  split; vm_compute; reflexivity.
Qed.

(** C2 fails as stated: L1A does not get 60.00 minutes and L1B does
    not get 15.00. *)
Lemma build_seat_list_row_1_not_full_front :
  exists seats l1a l1b,
    build_seat_list
      {| front_left := 60; back_left := 0;
         front_right := 0; back_right := 0 |} 12
    = Py.Ok seats
    /\ find_seat "L1A" seats = Some l1a
    /\ find_seat "L1B" seats = Some l1b
    /\ ~ exposure_minutes l1a == 60
    /\ ~ exposure_minutes l1b == 15.
Proof.
  eexists. eexists. eexists.
  split; [vm_compute; reflexivity |].
  split; [vm_compute; reflexivity |].
  split; [vm_compute; reflexivity |].
  split; intros H; vm_compute in H; discriminate H.
Qed.

End Scenario.

(** *** Lookup caches and failed lookups *)

Section CacheFacts.
Context {L : str.lib}.

(** A geocoding lookup that fails or finds nothing stores [None]. *)
Lemma geocode_miss_stored (net : network) (place_name : string)
    (st : state) :
  _geocode_cache st !! geocode_key place_name = None ->
  geocoder net place_name = GeoFail
  \/ geocoder net place_name = GeoData [] ->
  geocode_location net place_name st
  = (None,
     {| _geocode_cache :=
          <[geocode_key place_name := None]> (_geocode_cache st);
        _route_cache := _route_cache st;
        sent := sent st ++ [Nominatim place_name] |}).
Proof.
  intros Hfresh Hresp. unfold geocode_location. rewrite Hfresh.
  destruct Hresp as [-> | ->]; reflexivity.
Qed.

(** A cached key is answered from the cache, whatever the service
    would say. *)
Lemma geocode_cached (net : network) (place_name : string) (st : state)
    (cached : option (Q * Q)) :
  _geocode_cache st !! geocode_key place_name = Some cached ->
  geocode_location net place_name st = (cached, st).
Proof. intros H. unfold geocode_location. rewrite H. reflexivity. Qed.

(** A route lookup that fails raises and stores nothing. *)
Lemma get_route_failure (net : network)
    (start_lat start_lon end_lat end_lon : Q) (st : state) :
  _route_cache st !! route_key start_lat start_lon end_lat end_lon = None ->
  router net start_lon start_lat end_lon end_lat = RouteFail ->
  get_route net start_lat start_lon end_lat end_lon st
  = (Py.Raise Py.HTTPError,
     {| _geocode_cache := _geocode_cache st;
        _route_cache := _route_cache st;
        sent := sent st ++ [Osrm start_lon start_lat end_lon end_lat] |}).
Proof.
  intros Hfresh Hresp. unfold get_route. rewrite Hfresh, Hresp.
  reflexivity.
Qed.

(** C7, as the code has it: only the geocode cache records negative
    results.  After a geocoding lookup that fails or finds nothing,
    the cache holds [None] under the normalized key and any later
    lookup with that key returns [None] without a request.  After a
    route lookup that fails, the route cache is unchanged, and the
    same lookup sends its request again. *)
Theorem failed_lookups_and_caches (net : network) (place_name : string)
    (start_lat start_lon end_lat end_lon : Q) (st : state) :
  _geocode_cache st !! geocode_key place_name = None ->
  geocoder net place_name = GeoFail
  \/ geocoder net place_name = GeoData [] ->
  _route_cache st !! route_key start_lat start_lon end_lat end_lon = None ->
  router net start_lon start_lat end_lon end_lat = RouteFail ->
  (let '(found, st1) := geocode_location net place_name st in
   found = None
   /\ _geocode_cache st1 !! geocode_key place_name = Some None
   /\ sent st1 = sent st ++ [Nominatim place_name]
   /\ forall net' place_name',
        geocode_key place_name' = geocode_key place_name ->
        geocode_location net' place_name' st1 = (None, st1))
  /\ (let '(routed, st1) :=
        get_route net start_lat start_lon end_lat end_lon st in
      routed = Py.Raise Py.HTTPError
      /\ _route_cache st1 = _route_cache st
      /\ sent st1 = sent st ++ [Osrm start_lon start_lat end_lon end_lat]
      /\ forall net',
           router net' start_lon start_lat end_lon end_lat = RouteFail ->
           sent (snd (get_route net' start_lat start_lon end_lat end_lon
                        st1))
           = sent st ++ [Osrm start_lon start_lat end_lon end_lat;
                         Osrm start_lon start_lat end_lon end_lat]).
Proof.
  intros Hgeo Hgresp Hroute Hrresp. split.
  - rewrite (geocode_miss_stored net place_name st Hgeo Hgresp).
    split; [reflexivity |].
    split; [cbn; apply lookup_insert_eq |].
    split; [reflexivity |].
    intros net' place_name' Hkey.
    apply geocode_cached. rewrite Hkey. cbn. apply lookup_insert_eq.
  - rewrite (get_route_failure net _ _ _ _ st Hroute Hrresp).
    split; [reflexivity |].
    split; [reflexivity |].
    split; [reflexivity |].
    intros net' Hresp'.
    rewrite get_route_failure; [| exact Hroute | exact Hresp'].
    cbn. rewrite <- app_assoc. reflexivity.
Qed.

End CacheFacts.

(** C7 with both services failing, from empty caches. *)
Lemma failed_lookups_and_caches_witness :
  (let '(found, st1) :=
     @geocode_location Rational.str_lib offline "  Nowhere " initial_state in
   found = None
   /\ _geocode_cache st1 !! @geocode_key Rational.str_lib "  Nowhere "
      = Some None
   /\ sent st1 = sent initial_state ++ [Nominatim "  Nowhere "]
   /\ forall net' place_name',
        @geocode_key Rational.str_lib place_name'
        = @geocode_key Rational.str_lib "  Nowhere " ->
        @geocode_location Rational.str_lib net' place_name' st1
        = (None, st1))
  /\ (let '(routed, st1) := get_route offline 13 77 12 78 initial_state in
      routed = Py.Raise Py.HTTPError
      /\ _route_cache st1 = _route_cache initial_state
      /\ sent st1 = sent initial_state ++ [Osrm 77 13 78 12]
      /\ forall net',
           router net' 77%Q 13%Q 78%Q 12%Q = RouteFail ->
           sent (snd (get_route net' 13 77 12 78 st1))
           = sent initial_state ++ [Osrm 77 13 78 12; Osrm 77 13 78 12]).
Proof.
  apply (@failed_lookups_and_caches Rational.str_lib offline "  Nowhere "
           13%Q 77%Q 12%Q 78%Q initial_state).
  - apply lookup_empty.
  - left. reflexivity.
  - apply lookup_empty.
  - reflexivity.
Defined.

(** C7 fails as stated for the route cache: after a failed route lookup
    the cache has no entry for the key, and the same lookup sends the
    request a second time. *)
Lemma route_failure_not_cached :
  let '(routed, st1) := get_route offline 13 77 12 78 initial_state in
  routed = Py.Raise Py.HTTPError
  /\ _route_cache st1 !! route_key 13 77 12 78 = None
  /\ sent (snd (get_route offline 13 77 12 78 st1))
     = [Osrm 77 13 78 12; Osrm 77 13 78 12].
Proof.
  rewrite get_route_failure; [| apply lookup_empty | reflexivity].
  split; [reflexivity |].
  split; [apply lookup_empty |].
  rewrite get_route_failure; [reflexivity | apply lookup_empty | reflexivity].
Defined.

(* ===================================================================== *)
(** ** Further properties of the geometry utilities *)
(* ===================================================================== *)

Section GeometryMore.
Context {M : math.lib}.
Local Open Scope Q_scope.

(** X3: a bearing is a compass angle, from 0 (included) to 360
    (excluded), whatever the [math] functions return. *)
Theorem calculate_bearing_range (lat1 lon1 lat2 lon2 : Q) :
  0 <= calculate_bearing lat1 lon1 lat2 lon2
  /\ calculate_bearing lat1 lon1 lat2 lon2 < 360.
Proof.
  unfold calculate_bearing.
  match goal with
  | |- 0 <= Py.mod_ ?a 360 /\ _ => exact (mod_360_range a)
  end.
Qed.

Lemma sum_dist_nonneg (items : list ((coord * coord) * Q)) :
  Forall (fun it => 0 <= snd it) items -> 0 <= sum_dist items.
Proof.
  intros H. induction H as [| it rest Hit _ IH]; cbn [sum_dist fold_right].
  - lra.
  - fold (sum_dist rest). lra.
Qed.

(** X4: with a square root and an arctangent that are not negative, the
    length the first loop measures for a route is not negative. *)
Theorem total_distance_nonneg {L : math.laws M} (coords : list coord) :
  0 <= total_distance coords.
Proof.
  rewrite total_distance_sum. apply sum_dist_nonneg, items_nonneg.
Qed.

End GeometryMore.

(** X4 on a one-degree hop east from (77 E, 13 N). *)
Lemma total_distance_nonneg_witness :
  (0 <= @total_distance Rational.math_lib [(77, 13); (78, 13)])%Q.
Proof.
  apply (@total_distance_nonneg Rational.math_lib rational_math_laws).
Defined.

(* ===================================================================== *)
(** ** Further properties of the exposure engine *)
(* ===================================================================== *)

Section ExposureMore.
Context {M : math.lib} {A : astral.sun}.
Local Open Scope Q_scope.

(** The segments of a route paired with their lengths. *)
Let items (coords : list coord) : list ((coord * coord) * Q) :=
  combine (segments coords) (map segment_distance (segments coords)).

Lemma exposure_run (coords : list coord) (total_duration : Q)
    (dt : datetime) :
  ~ total_distance coords == 0 ->
  compute_exposure coords total_duration dt
  = Py.Ok (fold_left accumulate_sample
             (samples_from (total_distance coords) total_duration dt
                (items coords))
             zero_totals).
Proof.
  intros Hnz. unfold compute_exposure. rewrite measure_distances.
  destruct (Qeq_bool (total_distance coords) 0) eqn:E.
  - apply Qeq_bool_iff in E. contradiction.
  - apply walk_samples. exact Hnz.
Qed.

Lemma exposure_guard (coords : list coord) (total_duration : Q)
    (dt : datetime) :
  total_distance coords == 0 ->
  compute_exposure coords total_duration dt = Py.Ok zero_totals.
Proof.
  intros Hz. unfold compute_exposure. rewrite measure_distances.
  apply Qeq_bool_iff in Hz. rewrite Hz. reflexivity.
Qed.


(** What a successful listing of the samples says about the route. *)
Lemma route_samples_cases (coords : list coord) (total_duration : Q)
    (dt : datetime) (samples : list Sample) :
  route_samples coords total_duration dt = Py.Ok samples ->
  (segments coords = [] /\ samples = [])
  \/ (~ total_distance coords == 0
      /\ samples = samples_from (total_distance coords) total_duration dt
                     (items coords)).
Proof.
  unfold route_samples. rewrite measure_distances. intros H.
  destruct (Qeq_dec (total_distance coords) 0) as [Hz | Hnz].
  - left. destruct (segments coords) as [| seg rest] eqn:Hsegs.
    + split; [reflexivity |].
      unfold walk in H. rewrite Hsegs in H. cbn in H. congruence.
    + rewrite walk_zero_distance_raises in H;
        [discriminate | exact Hz |].
      rewrite Hsegs. discriminate.
  - right. split; [exact Hnz |].
    rewrite walk_samples in H by exact Hnz.
    rewrite fold_left_snoc in H. injection H as H.
    rewrite <- H. reflexivity.
Qed.

(** X5: [compute_exposure] never raises [ZeroDivisionError], on any
    route, duration and departure time: the guard on the total distance
    covers the one division by a computed value that may be zero, and
    the other divisors are constants or sample counts of at least 1. *)
Theorem compute_exposure_no_zero_division (coords : list coord)
    (total_duration : Q) (dt : datetime) :
  compute_exposure coords total_duration dt
  <> Py.Raise Py.ZeroDivisionError.
Proof.
  destruct (Qeq_dec (total_distance coords) 0) as [Hz | Hnz].
  - rewrite exposure_guard by exact Hz. discriminate.
  - rewrite exposure_run by exact Hnz. discriminate.
Qed.

Lemma fold_unlit (l : list Sample) (acc : ExposureTotals) :
  Forall (fun s => ~ lit s) l -> fold_left accumulate_sample l acc = acc.
Proof.
  intros H. revert acc.
  induction H as [| s rest Hs _ IH]; intros acc; cbn [fold_left];
    [reflexivity |].
  destruct (accumulate_sample_credit acc s) as ([q |] & Hsel & ->).
  - exfalso. apply Hs. exact (selects_some_lit s q Hsel).
  - apply IH.
Qed.

(** X6: when none of the samples of the walk is lit, the four totals are
    exactly zero. *)
Theorem compute_exposure_no_lit_sample (coords : list coord)
    (total_duration : Q) (dt : datetime) (samples : list Sample) :
  route_samples coords total_duration dt = Py.Ok samples ->
  Forall (fun s => ~ lit s) samples ->
  compute_exposure coords total_duration dt = Py.Ok zero_totals.
Proof.
  intros Hsamples Hdark.
  destruct (Qeq_dec (total_distance coords) 0) as [Hz | Hnz].
  - apply exposure_guard. exact Hz.
  - rewrite exposure_run by exact Hnz.
    destruct (route_samples_cases _ _ _ _ Hsamples) as [[Hs _] | [_ Heq]].
    + unfold items. rewrite Hs. reflexivity.
    + rewrite <- Heq. rewrite fold_unlit; [reflexivity | exact Hdark].
Qed.

Lemma sample_at_elevation (seg : coord * coord) (b st sub : Q)
    (t : datetime) (f : Q) :
  exists o t', s_sun_el (sample_at seg b st sub t f) = astral.elevation o t'.
Proof.
  destruct seg as [[lon1 lat1] [lon2 lat2]]. cbn. eexists. eexists.
  reflexivity.
Qed.

Lemma samples_from_elevation (total duration : Q) (t : datetime)
    (its : list ((coord * coord) * Q)) :
  Forall (fun s => exists o t', s_sun_el s = astral.elevation o t')
    (samples_from total duration t its).
Proof.
  revert t. induction its as [| it rest IH]; intros t; cbn [samples_from];
    [constructor |].
  apply Forall_app. split; [| apply IH].
  unfold segment_samples. apply List.Forall_map, List.Forall_forall.
  intros sub _. apply sample_at_elevation.
Qed.

(** X7: if the sun is nowhere and never above the horizon, the four
    totals are exactly zero. *)
Theorem compute_exposure_at_night (coords : list coord)
    (total_duration : Q) (dt : datetime) :
  (forall o t, astral.elevation o t <= 0) ->
  compute_exposure coords total_duration dt = Py.Ok zero_totals.
Proof.
  intros Hnight.
  destruct (Qeq_dec (total_distance coords) 0) as [Hz | Hnz].
  - apply exposure_guard. exact Hz.
  - rewrite exposure_run by exact Hnz.
    rewrite fold_unlit; [reflexivity |].
    eapply List.Forall_impl; [| apply samples_from_elevation].
    intros s (o & t' & Hel) (Hpos & _).
    rewrite Hel in Hpos. specialize (Hnight o t'). lra.
Qed.

End ExposureMore.

(** X6 on a one-kilometre hop with the sun dead ahead of the heading. *)
Lemma compute_exposure_no_lit_sample_witness :
  @compute_exposure Rational.math_lib (Rational.fixed_sun 90 45)
    [(77, 13); (7701 # 100, 13)]%Q 3600%Q 0%Z
  = Py.Ok zero_totals.
Proof.
  eapply (@compute_exposure_no_lit_sample Rational.math_lib
            (Rational.fixed_sun 90 45)).
  - vm_compute. reflexivity.
  - constructor; [| constructor].
    intros (_ & Hlo & _). vm_compute in Hlo. apply Hlo. reflexivity.
Defined.

(** X7 with the sun ten degrees below the horizon. *)
Lemma compute_exposure_at_night_witness :
  @compute_exposure Rational.math_lib (Rational.fixed_sun 120 (-10))
    [(77, 13); (78, 13)]%Q 3600%Q 0%Z
  = Py.Ok zero_totals.
Proof.
  apply (@compute_exposure_at_night Rational.math_lib
           (Rational.fixed_sun 120 (-10))).
  intros o t. cbn. discriminate.
Defined.

Section ExposureTotalsMore.
Context {M : math.lib} {A : astral.sun}.
Local Open Scope Q_scope.

Ltac lra_minutes :=
  unfold Qdiv in *; change (/ 60) with (1 # 60) in *; lra.

Lemma credit_no_time (q : option Quadrant) (mins : Q)
    (acc : ExposureTotals) :
  mins == 0 ->
  front_left (credit q mins acc) == front_left acc
  /\ back_left (credit q mins acc) == back_left acc
  /\ front_right (credit q mins acc) == front_right acc
  /\ back_right (credit q mins acc) == back_right acc.
Proof.
  intros Hm. destruct q as [[| | |] |]; cbn; rewrite ?Hm;
    repeat split; ring.
Qed.

Lemma fold_no_time (l : list Sample) (acc : ExposureTotals) :
  Forall (fun s => s_sub_time_s s == 0) l ->
  front_left (fold_left accumulate_sample l acc) == front_left acc
  /\ back_left (fold_left accumulate_sample l acc) == back_left acc
  /\ front_right (fold_left accumulate_sample l acc) == front_right acc
  /\ back_right (fold_left accumulate_sample l acc) == back_right acc.
Proof.
  intros H. revert acc.
  induction H as [| s rest Hs _ IH]; intros acc; cbn [fold_left].
  - repeat split; reflexivity.
  - destruct (accumulate_sample_credit acc s) as (q & _ & Hq).
    rewrite Hq.
    destruct (IH (credit q (s_sub_time_s s / 60) acc))
      as (H1 & H2 & H3 & H4).
    assert (Hm : s_sub_time_s s / 60 == 0)
      by (rewrite Hs; reflexivity).
    destruct (credit_no_time q _ acc Hm) as (K1 & K2 & K3 & K4).
    rewrite H1, H2, H3, H4. repeat split; assumption.
Qed.

Lemma samples_from_no_time (total duration : Q) (t : datetime)
    (its : list ((coord * coord) * Q)) :
  duration == 0 ->
  Forall (fun s => s_sub_time_s s == 0) (samples_from total duration t its).
Proof.
  intros Hd. revert t.
  induction its as [| it rest IH]; intros t; cbn [samples_from];
    [constructor |].
  apply Forall_app. split; [| apply IH].
  unfold segment_samples. apply List.Forall_map, List.Forall_forall.
  intros sub _. rewrite sample_at_time.
  unfold segment_time. rewrite Hd. unfold Qdiv. ring.
Qed.

(** X9: a trip of duration zero gives four totals equal to zero,
    wherever the sun is. *)
Theorem compute_exposure_zero_duration (coords : list coord)
    (total_duration : Q) (dt : datetime) :
  total_duration == 0 ->
  exists totals,
    compute_exposure coords total_duration dt = Py.Ok totals
    /\ all_zero_totals totals.
Proof.
  intros Hd.
  destruct (Qeq_dec (total_distance coords) 0) as [Hz | Hnz].
  - exists zero_totals. split; [apply exposure_guard; exact Hz |].
    repeat split; reflexivity.
  - eexists. split; [apply exposure_run; exact Hnz |].
    apply fold_no_time, samples_from_no_time. exact Hd.
Qed.

Lemma credit_nonneg (q : option Quadrant) (mins : Q)
    (acc : ExposureTotals) :
  0 <= mins -> nonneg_totals acc -> nonneg_totals (credit q mins acc).
Proof.
  intros Hm (H1 & H2 & H3 & H4).
  destruct q as [[| | |] |]; unfold nonneg_totals; cbn;
    repeat split; lra.
Qed.

Lemma fold_nonneg (l : list Sample) (acc : ExposureTotals) :
  Forall (fun s => 0 <= s_sub_time_s s) l ->
  nonneg_totals acc ->
  nonneg_totals (fold_left accumulate_sample l acc).
Proof.
  intros H. revert acc.
  induction H as [| s rest Hs _ IH]; intros acc Hacc; cbn [fold_left];
    [exact Hacc |].
  apply IH.
  destruct (accumulate_sample_credit acc s) as (q & _ & ->).
  apply credit_nonneg; [lra_minutes | exact Hacc].
Qed.

(** X10: with a square root and an arctangent that are not negative and
    a duration that is not negative, none of the four totals is
    negative. *)
Theorem compute_exposure_nonneg {L : math.laws M} (coords : list coord)
    (total_duration : Q) (dt : datetime) :
  0 <= total_duration ->
  exists totals,
    compute_exposure coords total_duration dt = Py.Ok totals
    /\ nonneg_totals totals.
Proof.
  intros Hd.
  destruct (Qeq_dec (total_distance coords) 0) as [Hz | Hnz].
  - exists zero_totals. split; [apply exposure_guard; exact Hz |].
    unfold nonneg_totals. cbn. repeat split; lra.
  - eexists. split; [apply exposure_run; exact Hnz |].
    apply fold_nonneg.
    + apply samples_from_nonneg; [| exact Hd | apply items_nonneg].
      pose proof (sum_dist_nonneg _ (items_nonneg (segments coords))) as H.
      rewrite <- total_distance_sum in H. lra.
    + unfold nonneg_totals. cbn. repeat split; lra.
Qed.




End ExposureTotalsMore.



(** X9 on a one-degree hop. *)
Lemma compute_exposure_zero_duration_witness :
  exists totals,
    @compute_exposure Rational.math_lib (Rational.fixed_sun 180 45)
      [(77, 13); (78, 13)]%Q 0%Q 0%Z = Py.Ok totals
    /\ all_zero_totals totals.
Proof.
  apply (@compute_exposure_zero_duration Rational.math_lib
           (Rational.fixed_sun 180 45)).
  reflexivity.
Defined.

(** X10 on a one-degree hop of one hour. *)
Lemma compute_exposure_nonneg_witness :
  exists totals,
    @compute_exposure Rational.math_lib (Rational.fixed_sun 180 45)
      [(77, 13); (78, 13)]%Q 3600%Q 0%Z = Py.Ok totals
    /\ nonneg_totals totals.
Proof.
  apply (@compute_exposure_nonneg Rational.math_lib
           (Rational.fixed_sun 180 45) rational_math_laws).
  vm_compute. discriminate.
Defined.

Section ExposureSides.
Context {M : math.lib} {A : astral.sun}.
Local Open Scope Q_scope.

Lemma fold_right_side_untouched (l : list Sample) (acc : ExposureTotals) :
  Forall (fun s => normalize (s_sun_az s - s_seg_bearing s) <= 0) l ->
  front_right (fold_left accumulate_sample l acc) = front_right acc
  /\ back_right (fold_left accumulate_sample l acc) = back_right acc.
Proof.
  intros H. revert acc.
  induction H as [| s rest Hs _ IH]; intros acc; cbn [fold_left].
  - split; reflexivity.
  - destruct (IH (accumulate_sample acc s)) as [H1 H2].
    rewrite H1, H2.
    destruct (accumulate_sample_credit acc s) as (q & Hsel & ->).
    inversion Hsel; subst; cbn; try (split; reflexivity); exfalso; lra.
Qed.

Lemma fold_left_side_untouched (l : list Sample) (acc : ExposureTotals) :
  Forall (fun s => 0 < normalize (s_sun_az s - s_seg_bearing s)) l ->
  front_left (fold_left accumulate_sample l acc) = front_left acc
  /\ back_left (fold_left accumulate_sample l acc) = back_left acc.
Proof.
  intros H. revert acc.
  induction H as [| s rest Hs _ IH]; intros acc; cbn [fold_left].
  - split; reflexivity.
  - destruct (IH (accumulate_sample acc s)) as [H1 H2].
    rewrite H1, H2.
    destruct (accumulate_sample_credit acc s) as (q & Hsel & ->).
    inversion Hsel; subst; cbn; try (split; reflexivity); exfalso; lra.
Qed.

(** X11: if at every sample the sun is not to the right of the heading
    (relative angle at most 0) the two right totals stay exactly zero,
    and if it is to the right at every sample (relative angle above 0)
    the two left totals stay exactly zero. *)
Theorem compute_exposure_one_side (coords : list coord)
    (total_duration : Q) (dt : datetime) (samples : list Sample) :
  route_samples coords total_duration dt = Py.Ok samples ->
  exists totals,
    compute_exposure coords total_duration dt = Py.Ok totals
    /\ (Forall (fun s => normalize (s_sun_az s - s_seg_bearing s) <= 0)
          samples ->
        front_right totals = 0 /\ back_right totals = 0)
    /\ (Forall (fun s => 0 < normalize (s_sun_az s - s_seg_bearing s))
          samples ->
        front_left totals = 0 /\ back_left totals = 0).
Proof.
  intros Hsamples.
  destruct (Qeq_dec (total_distance coords) 0) as [Hz | Hnz].
  - exists zero_totals. split; [apply exposure_guard; exact Hz |].
    split; intros _; split; reflexivity.
  - eexists. split; [apply exposure_run; exact Hnz |].
    destruct (route_samples_cases _ _ _ _ Hsamples) as [[Hs _] | [_ Heq]].
    + exfalso. apply Hnz. rewrite total_distance_sum, Hs. reflexivity.
    + rewrite <- Heq. split; intros Hside.
      * exact (fold_right_side_untouched samples zero_totals Hside).
      * exact (fold_left_side_untouched samples zero_totals Hside).
Qed.

Lemma length_segments (coords : list coord) :
  length (segments coords) = (length coords - 1)%nat.
Proof.
  induction coords as [| p1 rest IH]; [reflexivity |].
  destruct rest as [| p2 rest']; [reflexivity |].
  change (segments (p1 :: p2 :: rest'))
    with ((p1, p2) :: segments (p2 :: rest')).
  cbn [length] in *. lia.
Qed.

Lemma segment_samples_count (total duration : Q) (t : datetime)
    (it : (coord * coord) * Q) :
  (1 <= length (segment_samples total duration t it))%nat
  /\ snd it
     <= 5 * inject_Z (Z.of_nat (length (segment_samples total duration t it))).
Proof.
  unfold segment_samples. rewrite length_map, length_range.
  set (n := Z.max 1 (Py.ceil (snd it / SAMPLE_INTERVAL_KM))).
  assert (Hn1 : (1 <= n)%Z) by apply n_sub_positive.
  split; [lia |].
  rewrite Z2Nat.id by lia.
  assert (Hc : snd it / 5 <= inject_Z n).
  { apply Qle_trans with (inject_Z (Py.ceil (snd it / SAMPLE_INTERVAL_KM))).
    - apply Qle_ceiling.
    - rewrite <- Zle_Qle. apply Z.le_max_r. }
  unfold Qdiv in Hc. change (/ 5) with (1 # 5) in Hc. lra.
Qed.

Lemma samples_from_count (total duration : Q) (t : datetime)
    (its : list ((coord * coord) * Q)) :
  (length its <= length (samples_from total duration t its))%nat
  /\ sum_dist its
     <= 5 * inject_Z (Z.of_nat (length (samples_from total duration t its))).
Proof.
  revert t. induction its as [| it rest IH]; intros t;
    cbn [samples_from sum_dist fold_right length].
  - split; [lia | vm_compute; discriminate].
  - fold (sum_dist rest). rewrite length_app.
    destruct (segment_samples_count total duration t it) as [H1 H2].
    destruct (IH (t + timedelta (segment_time total duration it))%Z)
      as [H3 H4].
    split; [lia |].
    rewrite Nat2Z.inj_add, inject_Z_plus. lra.
Qed.

(** X12: the walk takes at least one sample on each segment of the
    route, and at least one for every 5 km of its length. *)
Theorem route_samples_density (coords : list coord) (total_duration : Q)
    (dt : datetime) (samples : list Sample) :
  route_samples coords total_duration dt = Py.Ok samples ->
  (length coords - 1 <= length samples)%nat
  /\ total_distance coords <= 5 * inject_Z (Z.of_nat (length samples)).
Proof.
  intros Hsamples.
  destruct (route_samples_cases _ _ _ _ Hsamples) as [[Hs ->] | [_ ->]].
  - rewrite <- length_segments, Hs. split; [cbn; lia |].
    rewrite total_distance_sum, Hs. vm_compute. discriminate.
  - destruct (samples_from_count (total_distance coords) total_duration dt
                (combine (segments coords)
                   (map segment_distance (segments coords))))
      as [H1 H2].
    rewrite length_combine, length_map, Nat.min_id, length_segments in H1.
    split; [exact H1 |].
    rewrite <- total_distance_sum in H2. exact H2.
Qed.

End ExposureSides.

(** X11 on a one-kilometre hop east with the sun in the south. *)
Lemma compute_exposure_one_side_witness :
  exists samples,
    @route_samples Rational.math_lib (Rational.fixed_sun 180 45)
      [(77, 13); (7701 # 100, 13)]%Q 3600%Q 0%Z = Py.Ok samples
    /\ exists totals,
         @compute_exposure Rational.math_lib (Rational.fixed_sun 180 45)
           [(77, 13); (7701 # 100, 13)]%Q 3600%Q 0%Z = Py.Ok totals
         /\ (Forall
               (fun s => (normalize (s_sun_az s - s_seg_bearing s) <= 0)%Q)
               samples ->
             front_right totals = 0%Q /\ back_right totals = 0%Q)
         /\ (Forall
               (fun s => (0 < normalize (s_sun_az s - s_seg_bearing s))%Q)
               samples ->
             front_left totals = 0%Q /\ back_left totals = 0%Q).
Proof.
  eexists. split; [vm_compute; reflexivity |].
  apply (@compute_exposure_one_side Rational.math_lib
           (Rational.fixed_sun 180 45)).
  vm_compute. reflexivity.
Defined.

(** X12 on a route of three points and two segments. *)
Lemma route_samples_density_witness :
  exists samples,
    @route_samples Rational.math_lib (Rational.fixed_sun 180 45)
      [(77, 13); (7701 # 100, 13); (7702 # 100, 13)]%Q 3600%Q 0%Z
    = Py.Ok samples
    /\ (length [(77, 13); (7701 # 100, 13); (7702 # 100, 13)]%Q - 1
        <= length samples)%nat
    /\ (@total_distance Rational.math_lib
          [(77, 13); (7701 # 100, 13); (7702 # 100, 13)]
        <= 5 * inject_Z (Z.of_nat (length samples)))%Q.
Proof.
  eexists. split; [vm_compute; reflexivity |].
  apply (@route_samples_density Rational.math_lib
           (Rational.fixed_sun 180 45) _ 3600%Q 0%Z).
  vm_compute. reflexivity.
Defined.

(* ===================================================================== *)
(** ** Further properties of the seat allocator *)
(* ===================================================================== *)

Section RoundingMore.
Local Open Scope Q_scope.

Lemma round_half_even_near (x : Q) :
  inject_Z (Py.round_half_even x) - (1 # 2) <= x
  /\ x <= inject_Z (Py.round_half_even x) + (1 # 2).
Proof.
  pose proof (Qfloor_le x) as Hlo. pose proof (Qlt_floor x) as Hhi.
  rewrite inject_Z_plus in Hhi. change (inject_Z 1) with 1 in Hhi.
  unfold Py.round_half_even.
  destruct (Py.Qltb (x - inject_Z (Qfloor x)) (1 # 2)) eqn:E1.
  - apply Qltb_true in E1. split; lra.
  - apply Qltb_false in E1.
    destruct (Py.Qltb (1 # 2) (x - inject_Z (Qfloor x))) eqn:E2.
    + rewrite inject_Z_plus. change (inject_Z 1) with 1. split; lra.
    + apply Qltb_false in E2.
      destruct (Z.even (Qfloor x));
        rewrite ?inject_Z_plus; change (inject_Z 1) with 1; split; lra.
Qed.

Lemma round_half_even_proper (x y : Q) :
  x == y -> Py.round_half_even x = Py.round_half_even y.
Proof.
  intros H. unfold Py.round_half_even, Py.Qltb.
  rewrite (Qfloor_comp _ _ H).
  assert (H1 : Qle_bool (1 # 2) (x - inject_Z (Qfloor y))
               = Qle_bool (1 # 2) (y - inject_Z (Qfloor y)))
    by (rewrite H; reflexivity).
  assert (H2 : Qle_bool (x - inject_Z (Qfloor y)) (1 # 2)
               = Qle_bool (y - inject_Z (Qfloor y)) (1 # 2))
    by (rewrite H; reflexivity).
  rewrite H1, H2. reflexivity.
Qed.

Lemma round_half_even_monotone (x y : Q) :
  x <= y -> (Py.round_half_even x <= Py.round_half_even y)%Z.
Proof.
  intros Hxy.
  destruct (Z_le_gt_dec (Py.round_half_even x) (Py.round_half_even y))
    as [Hle | Hgt]; [exact Hle |].
  destruct (round_half_even_near x) as [Hx _].
  destruct (round_half_even_near y) as [_ Hy].
  assert (Hstep : inject_Z (Py.round_half_even y) + 1
                  <= inject_Z (Py.round_half_even x)).
  { change 1 with (inject_Z 1). rewrite <- inject_Z_plus, <- Zle_Qle. lia. }
  assert (Heq : x == y) by lra.
  rewrite (round_half_even_proper x y Heq). lia.
Qed.

Lemma round_monotone (x y : Q) (ndigits : nat) :
  x <= y -> Py.round x ndigits <= Py.round y ndigits.
Proof.
  intros Hxy. unfold Py.round.
  pose proof (scale_positive ndigits) as Hs.
  set (s := inject_Z (10 ^ Z.of_nat ndigits)) in *.
  apply Qmult_le_compat_r; [| apply Qlt_le_weak, Qinv_lt_0_compat; exact Hs].
  rewrite <- Zle_Qle. apply round_half_even_monotone.
  apply Qmult_le_compat_r; lra.
Qed.

End RoundingMore.

Section SeatsMore.
Local Open Scope Q_scope.

Lemma row_seats_entries (exposure : ExposureTotals) (total_rows r : Z) :
  (1 <= r <= total_rows)%Z ->
  exists added,
    row_seats exposure total_rows r = Py.Ok added
    /\ length added = 5%nat
    /\ Forall (entry_ok exposure total_rows) added.
Proof.
  intros Hr.
  assert (Ht : ~ inject_Z total_rows == 0)
    by (apply inject_Z_nonzero; lia).
  unfold row_seats. rewrite !(div_ok _ _ Ht). cbn [mbind result_bind Py.bind].
  eexists. split; [reflexivity |]. split; [reflexivity |].
  repeat constructor; cbn; try lia; eexists; split; reflexivity.
Qed.

Lemma rows_loop_length (exposure : ExposureTotals) (total_rows : Z)
    (rows : list Z) (seats : list SeatEntry) :
  (forall r, In r rows -> (1 <= r <= total_rows)%Z) ->
  exists entries,
    Py.for_each rows
      (fun seats r =>
         added ← row_seats exposure total_rows r; Py.Ok (seats ++ added))
      seats
    = Py.Ok entries
    /\ length entries = (length seats + 5 * length rows)%nat.
Proof.
  revert seats. induction rows as [| r rest IH]; intros seats Hrows.
  - exists seats. split; [reflexivity | cbn; lia].
  - destruct (row_seats_entries exposure total_rows r) as
      (added & Hadded & Hlen & _); [apply Hrows; left; reflexivity |].
    destruct (IH (seats ++ added)) as (entries & Hrun & Hcount).
    { intros r' Hr'. apply Hrows. right. exact Hr'. }
    exists entries. cbn [Py.for_each]. rewrite Hadded.
    cbn [mbind result_bind Py.bind]. split; [exact Hrun |].
    rewrite Hcount, length_app, Hlen. cbn [length]. lia.
Qed.

(** X13: for every totals and every number of rows the call returns a
    list, of five seats for each row (none when the number of rows is
    zero or negative). *)
Theorem build_seat_list_length (exposure : ExposureTotals) (total_rows : Z) :
  exists seats,
    build_seat_list exposure total_rows = Py.Ok seats
    /\ length seats = (5 * Z.to_nat total_rows)%nat.
Proof.
  destruct (rows_loop_length exposure total_rows
              (Py.range2 1 (total_rows + 1)) []) as (entries & Hrun & Hlen).
  { intros r Hr. apply in_range2 in Hr. lia. }
  exists (map (rated (max_default (map e_exposure_minutes entries) 0))
            entries).
  split; [apply build_seat_list_rated; exact Hrun |].
  rewrite length_map, Hlen. unfold Py.range2.
  rewrite length_map, length_seq. cbn [length].
  replace (total_rows + 1 - 1)%Z with total_rows by lia. lia.
Qed.

(** The seats of the result, one by one. *)
Lemma build_seat_list_members (exposure : ExposureTotals) (total_rows : Z) :
  exists entries,
    build_seat_list exposure total_rows
    = Py.Ok (map (rated (max_default (map e_exposure_minutes entries) 0))
               entries)
    /\ Forall (entry_ok exposure total_rows) entries.
Proof.
  destruct (rows_loop (entry_ok exposure total_rows) exposure total_rows)
    as (entries & Hrun & Hentries).
  { intros r Hr.
    destruct (row_seats_entries exposure total_rows r Hr)
      as (added & Hadded & _ & Hok).
    exists added. split; assumption. }
  exists entries. split; [apply build_seat_list_rated; exact Hrun |].
  exact Hentries.
Qed.

Lemma multiplier_range (sd : Side) (pos : Position) (m : Q) :
  multiplier sd pos = Some m -> 0 <= m /\ m <= 1.
Proof.
  destruct sd, pos; cbn; intros H; inversion H; subst;
    split; vm_compute; discriminate.
Qed.

Lemma multiplier_rank (sd : Side) (p1 p2 : Position) (m1 m2 : Q) :
  multiplier sd p1 = Some m1 -> multiplier sd p2 = Some m2 ->
  (window_rank p2 <= window_rank p1)%nat -> m2 <= m1.
Proof.
  destruct sd, p1, p2; cbn; intros H1 H2 Hrank;
    inversion H1; inversion H2; subst;
    try (vm_compute; discriminate); lia.
Qed.

End SeatsMore.

Section SeatOrder.
Local Open Scope Q_scope.

Lemma side_base_nonneg (exposure : ExposureTotals) (total_rows r : Z)
    (sd : Side) :
  nonneg_totals exposure -> (1 <= r <= total_rows)%Z ->
  0 <= side_base exposure total_rows r sd.
Proof.
  intros (H1 & H2 & H3 & H4) Hr. unfold side_base.
  destruct sd; cbn [front_of back_of]; apply base_nonneg; assumption.
Qed.

(** X14: for totals none of which is negative, no seat gets negative
    exposure minutes. *)
Theorem build_seat_list_minutes_nonneg (exposure : ExposureTotals)
    (total_rows : Z) :
  nonneg_totals exposure ->
  exists seats,
    build_seat_list exposure total_rows = Py.Ok seats
    /\ Forall (fun s => 0 <= exposure_minutes s) seats.
Proof.
  intros Hnn.
  destruct (build_seat_list_members exposure total_rows)
    as (entries & Hbuild & Hok).
  eexists. split; [exact Hbuild |].
  apply List.Forall_map. eapply List.Forall_impl; [| exact Hok].
  intros e (Hrow & m & Hm & Hmin). cbn [rated exposure_minutes].
  rewrite Hmin. apply round_nonneg.
  pose proof (side_base_nonneg exposure total_rows (e_row e) (e_side e)
                Hnn Hrow) as Hbase.
  destruct (multiplier_range _ _ _ Hm) as [Hm0 _]. nra.
Qed.

(** X15: for totals none of which is negative, within a row and a side a
    seat nearer the window never has less exposure: the window seat has
    the most, and on the right the middle seat at least the aisle's. *)
Theorem build_seat_list_window_most (exposure : ExposureTotals)
    (total_rows : Z) :
  nonneg_totals exposure ->
  exists seats,
    build_seat_list exposure total_rows = Py.Ok seats
    /\ forall s1 s2,
         In s1 seats -> In s2 seats ->
         row s1 = row s2 -> side s1 = side s2 ->
         (window_rank (position s2) <= window_rank (position s1))%nat ->
         exposure_minutes s2 <= exposure_minutes s1.
Proof.
  intros Hnn.
  destruct (build_seat_list_members exposure total_rows)
    as (entries & Hbuild & Hok).
  rewrite List.Forall_forall in Hok.
  eexists. split; [exact Hbuild |].
  intros s1 s2 Hs1 Hs2 Hrow Hside Hrank.
  apply in_map_iff in Hs1 as (e1 & <- & He1).
  apply in_map_iff in Hs2 as (e2 & <- & He2).
  cbn [rated row side position exposure_minutes] in *.
  destruct (Hok e1 He1) as (Hr1 & m1 & Hm1 & ->).
  destruct (Hok e2 He2) as (Hr2 & m2 & Hm2 & ->).
  rewrite <- Hrow, <- Hside. rewrite <- Hside in Hm2.
  apply round_monotone.
  pose proof (side_base_nonneg exposure total_rows (e_row e1) (e_side e1)
                Hnn Hr1) as Hbase.
  pose proof (multiplier_rank _ _ _ _ _ Hm1 Hm2 Hrank) as Hm.
  nra.
Qed.

(** X17: the ratio ranks the seats as their exposure minutes do: a seat
    with at most the minutes of another has at most its ratio. *)
Theorem build_seat_list_ratio_monotone (exposure : ExposureTotals)
    (total_rows : Z) :
  exists seats,
    build_seat_list exposure total_rows = Py.Ok seats
    /\ forall s1 s2,
         In s1 seats -> In s2 seats ->
         exposure_minutes s1 <= exposure_minutes s2 ->
         exposure_ratio s1 <= exposure_ratio s2.
Proof.
  destruct (build_seat_list_members exposure total_rows)
    as (entries & Hbuild & _).
  eexists. split; [exact Hbuild |].
  intros s1 s2 Hs1 Hs2 Hle.
  apply in_map_iff in Hs1 as (e1 & <- & _).
  apply in_map_iff in Hs2 as (e2 & <- & _).
  unfold rated in *. cbn [exposure_minutes exposure_ratio] in *.
  destruct (Py.Qltb 0 _) eqn:E; [| lra].
  apply Qltb_true in E.
  apply round_monotone.
  apply Qmult_le_compat_r; [exact Hle |].
  apply Qlt_le_weak, Qinv_lt_0_compat. exact E.
Qed.

End SeatOrder.

(** X14 on the totals 60, 20, 30, 10 and twelve rows. *)
Lemma build_seat_list_minutes_nonneg_witness :
  exists seats,
    build_seat_list
      {| front_left := 60; back_left := 20;
         front_right := 30; back_right := 10 |} 12
    = Py.Ok seats
    /\ Forall (fun s => (0 <= exposure_minutes s)%Q) seats.
Proof.
  apply build_seat_list_minutes_nonneg.
  unfold nonneg_totals. cbn. repeat split; discriminate.
Defined.

(** X15 on the totals 60, 20, 30, 10 and twelve rows. *)
Lemma build_seat_list_window_most_witness :
  exists seats,
    build_seat_list
      {| front_left := 60; back_left := 20;
         front_right := 30; back_right := 10 |} 12
    = Py.Ok seats
    /\ forall s1 s2,
         In s1 seats -> In s2 seats ->
         row s1 = row s2 -> side s1 = side s2 ->
         (window_rank (position s2) <= window_rank (position s1))%nat ->
         (exposure_minutes s2 <= exposure_minutes s1)%Q.
Proof.
  apply build_seat_list_window_most.
  unfold nonneg_totals. cbn. repeat split; discriminate.
Defined.

(* ===================================================================== *)
(** ** Further properties of the lookup caches *)
(* ===================================================================== *)

Section CachesMore.
Context {L : str.lib}.

(** X18: a geocoding lookup that misses the cache and gets hits returns
    the first hit, sends one request and stores the hit under the
    normalized key; from then on every lookup of a name with that key
    returns the same hit from the cache, sending nothing, whatever the
    service would answer. *)
Theorem geocode_hit_cached (net : network) (place_name : string)
    (st : state) (hit : Q * Q) (others : list (Q * Q)) :
  _geocode_cache st !! geocode_key place_name = None ->
  geocoder net place_name = GeoData (hit :: others) ->
  let '(found, st1) := geocode_location net place_name st in
  found = Some hit
  /\ _geocode_cache st1 !! geocode_key place_name = Some (Some hit)
  /\ sent st1 = sent st ++ [Nominatim place_name]
  /\ forall net' place_name',
       geocode_key place_name' = geocode_key place_name ->
       geocode_location net' place_name' st1 = (Some hit, st1).
Proof.
  intros Hfresh Hresp. unfold geocode_location at 1.
  rewrite Hfresh, Hresp.
  split; [reflexivity |].
  split; [cbn; apply lookup_insert_eq |].
  split; [reflexivity |].
  intros net' place_name' Hkey.
  unfold geocode_location. rewrite Hkey. cbn [_geocode_cache].
  rewrite lookup_insert_eq. reflexivity.
Qed.

(** X19: a route lookup that misses the cache and succeeds returns the
    route, sends one request and stores the route under the key of the
    four coordinates; from then on every lookup whose coordinates give
    the same key returns the same route from the cache, sending nothing,
    whatever the service would answer. *)
Theorem get_route_success_cached (net : network)
    (start_lat start_lon end_lat end_lon : Q) (st : state)
    (coords : list coord) (duration : Q) :
  _route_cache st !! route_key start_lat start_lon end_lat end_lon = None ->
  router net start_lon start_lat end_lon end_lat
  = RouteData coords duration ->
  let '(routed, st1) :=
    get_route net start_lat start_lon end_lat end_lon st in
  routed = Py.Ok (coords, duration)
  /\ sent st1 = sent st ++ [Osrm start_lon start_lat end_lon end_lat]
  /\ forall net' start_lat' start_lon' end_lat' end_lon',
       route_key start_lat' start_lon' end_lat' end_lon'
       = route_key start_lat start_lon end_lat end_lon ->
       get_route net' start_lat' start_lon' end_lat' end_lon' st1
       = (Py.Ok (coords, duration), st1).
Proof.
  intros Hfresh Hresp. unfold get_route at 1. rewrite Hfresh, Hresp.
  split; [reflexivity |].
  split; [reflexivity |].
  intros net' a b c d Hkey.
  unfold get_route. rewrite Hkey. cbn [_route_cache].
  rewrite lookup_insert_eq. reflexivity.
Qed.



End CachesMore.

(** X18 from empty caches, with a service that knows the place. *)
Lemma geocode_hit_cached_witness :
  let '(found, st1) :=
    @geocode_location Rational.str_lib
      (online (13, 77)%Q [(77, 13); (78, 12)]%Q 3600%Q) "  Chennai "
      initial_state in
  found = Some (13, 77)%Q
  /\ _geocode_cache st1 !! @geocode_key Rational.str_lib "  Chennai "
     = Some (Some (13, 77)%Q)
  /\ sent st1 = sent initial_state ++ [Nominatim "  Chennai "]
  /\ forall net' place_name',
       @geocode_key Rational.str_lib place_name'
       = @geocode_key Rational.str_lib "  Chennai " ->
       @geocode_location Rational.str_lib net' place_name' st1
       = (Some (13, 77)%Q, st1).
Proof.
  apply (@geocode_hit_cached Rational.str_lib
           (online (13, 77)%Q [(77, 13); (78, 12)]%Q 3600%Q) "  Chennai "
           initial_state (13, 77)%Q []).
  - apply lookup_empty.
  - reflexivity.
Defined.

(** X19 from empty caches, with a service that has a route. *)
Lemma get_route_success_cached_witness :
  let '(routed, st1) :=
    get_route (online (13, 77)%Q [(77, 13); (78, 12)]%Q 3600%Q)
      13 77 12 78 initial_state in
  routed = Py.Ok ([(77, 13); (78, 12)]%Q, 3600%Q)
  /\ sent st1 = sent initial_state ++ [Osrm 77 13 78 12]
  /\ forall net' start_lat' start_lon' end_lat' end_lon',
       route_key start_lat' start_lon' end_lat' end_lon'
       = route_key 13 77 12 78 ->
       get_route net' start_lat' start_lon' end_lat' end_lon' st1
       = (Py.Ok ([(77, 13); (78, 12)]%Q, 3600%Q), st1).
Proof.
  apply (get_route_success_cached
           (online (13, 77)%Q [(77, 13); (78, 12)]%Q 3600%Q)
           13%Q 77%Q 12%Q 78%Q initial_state).
  - apply lookup_empty.
  - reflexivity.
Defined.

Section SeatIds.

Lemma str_of_int_inj (a b : Z) :
  Py.str_of_int a = Py.str_of_int b -> a = b.
Proof.
  unfold Py.str_of_int. intros H.
  assert (Hnn : forall z, Z.to_int z <> Decimal.Pos Decimal.Nil
                          /\ Z.to_int z <> Decimal.Neg Decimal.Nil).
  { intros [| p | p]; cbn; split; try discriminate;
      intros Hp; injection Hp as Hp;
      exact (DecimalPos.Unsigned.to_uint_nonnil p Hp). }
  destruct (Hnn a) as [Ha1 Ha2]. destruct (Hnn b) as [Hb1 Hb2].
  pose proof (NilZero.isi (Z.to_int a) Ha1 Ha2) as Ia.
  pose proof (NilZero.isi (Z.to_int b) Hb1 Hb2) as Ib.
  rewrite H in Ia. rewrite Ia in Ib. injection Ib as Ib.
  apply DecimalZ.to_int_inj. exact Ib.
Qed.

Lemma append_last_inj (s1 s2 : string) (c1 c2 : ascii) :
  String.append s1 (String c1 EmptyString)
  = String.append s2 (String c2 EmptyString) ->
  s1 = s2 /\ c1 = c2.
Proof.
  revert s2. induction s1 as [| a s1 IH]; intros [| b s2] H; cbn in H.
  - injection H as H. split; [reflexivity | exact H].
  - injection H as _ H. destruct s2; discriminate H.
  - injection H as _ H. destruct s1; discriminate H.
  - injection H as Hab H. destruct (IH s2 H) as [-> ->].
    subst. split; reflexivity.
Qed.

Lemma seat_id_inj (c1 c2 d1 d2 : ascii) (n m : string) :
  String.append (String c1 EmptyString)
    (String.append n (String d1 EmptyString))
  = String.append (String c2 EmptyString)
      (String.append m (String d2 EmptyString)) ->
  c1 = c2 /\ n = m /\ d1 = d2.
Proof.
  intros H.
  change (String c1 (String.append n (String d1 EmptyString))
          = String c2 (String.append m (String d2 EmptyString))) in H.
  injection H as Hc Hs. apply append_last_inj in Hs as [Hn Hd].
  split; [exact Hc |]. split; assumption.
Qed.

(** Entries named after their side, row and position have the same
    identifier only if they agree on the three. *)
Lemma entry_named_inj (e1 e2 : SeatEntry) :
  entry_named e1 -> entry_named e2 ->
  e_seat_id e1 = e_seat_id e2 ->
  e_row e1 = e_row e2 /\ e_side e1 = e_side e2
  /\ e_position e1 = e_position e2.
Proof.
  intros (a1 & b1 & L1 & I1) (a2 & b2 & L2 & I2) Hid.
  rewrite I1, I2 in Hid. injection Hid as Ha Hrest.
  apply append_last_inj in Hrest as [Hn Hb].
  apply str_of_int_inj in Hn. subst a2 b2.
  split; [exact Hn |].
  destruct (e_side e1), (e_position e1), (e_side e2), (e_position e2);
    cbn in L1, L2; try discriminate; split; try reflexivity;
    congruence.
Qed.

Lemma row_seats_named (exposure : ExposureTotals) (total_rows r : Z) :
  (1 <= r <= total_rows)%Z ->
  exists added,
    row_seats exposure total_rows r = Py.Ok added
    /\ Forall (fun e => entry_named e /\ e_row e = r) added
    /\ NoDup (map e_seat_id added).
Proof.
  intros Hr.
  assert (Ht : ~ (inject_Z total_rows == 0)%Q)
    by (apply inject_Z_nonzero; lia).
  unfold row_seats. rewrite !(div_ok _ _ Ht). cbn [mbind result_bind Py.bind].
  eexists. split; [reflexivity |]. split.
  - repeat constructor; cbn; eexists; eexists; split; reflexivity.
  - cbn [map e_seat_id].
    repeat (constructor;
            [rewrite ?elem_of_cons, elem_of_nil;
             intros Hin; repeat (destruct Hin as [Hin | Hin]);
             first [ exact Hin
                   | apply seat_id_inj in Hin as (Hc & _ & Hl);
                     first [discriminate Hc | discriminate Hl] ] |]).
    constructor.
Qed.

Lemma rows_loop_named (exposure : ExposureTotals) (total_rows : Z)
    (rows : list Z) (seats : list SeatEntry) :
  NoDup rows ->
  (forall r, In r rows -> (1 <= r <= total_rows)%Z) ->
  Forall (fun e => entry_named e /\ ~ In (e_row e) rows) seats ->
  NoDup (map e_seat_id seats) ->
  exists entries,
    Py.for_each rows
      (fun seats r =>
         added ← row_seats exposure total_rows r; Py.Ok (seats ++ added))
      seats
    = Py.Ok entries
    /\ NoDup (map e_seat_id entries).
Proof.
  intros Hnd. revert seats.
  induction Hnd as [| r rest Hfresh Hrest IH]; intros seats Hrows Hseats Hids.
  - exists seats. split; [reflexivity | exact Hids].
  - destruct (row_seats_named exposure total_rows r)
      as (added & Hadded & Hnamed & Hnew);
      [apply Hrows; left; reflexivity |].
    rewrite List.Forall_forall in Hseats, Hnamed.
    destruct (IH (seats ++ added)) as (entries & Hrun & Hunique).
    + intros r' Hr'. apply Hrows. right. exact Hr'.
    + apply List.Forall_forall. intros e He.
      apply in_app_or in He as [He | He].
      * destruct (Hseats e He) as [Hn Hout].
        split; [exact Hn |]. intros Hin. apply Hout. right. exact Hin.
      * destruct (Hnamed e He) as [Hn Hrow].
        split; [exact Hn |]. rewrite Hrow.
        intros Hin. apply Hfresh. apply list_elem_of_In. exact Hin.
    + rewrite map_app. apply NoDup_app.
      split; [exact Hids |]. split; [| exact Hnew].
      intros id Hold Hadd.
      apply list_elem_of_In, in_map_iff in Hold as (e1 & Hid1 & He1).
      apply list_elem_of_In, in_map_iff in Hadd as (e2 & Hid2 & He2).
      destruct (Hseats e1 He1) as [Hn1 Hout].
      destruct (Hnamed e2 He2) as [Hn2 Hrow2].
      destruct (entry_named_inj e1 e2 Hn1 Hn2) as (Hsame & _);
        [congruence |].
      apply Hout. left. congruence.
    + exists entries. cbn [Py.for_each]. rewrite Hadded.
      cbn [mbind result_bind Py.bind]. split; assumption.
Qed.

(** X22: the seat identifiers of the returned list are pairwise
    different. *)
Theorem build_seat_list_ids_unique (exposure : ExposureTotals)
    (total_rows : Z) :
  exists seats,
    build_seat_list exposure total_rows = Py.Ok seats
    /\ NoDup (map seat_id seats).
Proof.
  destruct (rows_loop_named exposure total_rows
              (Py.range2 1 (total_rows + 1)) [])
    as (entries & Hrun & Hunique).
  - unfold Py.range2. apply NoDup_fmap_2; [| apply NoDup_seq].
    intros a b Hab. lia.
  - intros r Hr. apply in_range2 in Hr. lia.
  - constructor.
  - constructor.
  - eexists. split; [apply build_seat_list_rated; exact Hrun |].
    rewrite map_map. cbn [rated seat_id]. exact Hunique.
Qed.

End SeatIds.

(* ===================================================================== *)
(** ** Properties of the response *)
(* ===================================================================== *)

Section ResponseFacts.
Context {M : math.lib} {A : astral.sun}.
Local Open Scope Q_scope.

Ltac lra_minutes :=
  unfold Qdiv in *; change (/ 60) with (1 # 60) in *; lra.

Lemma bind_ok {X Y : Type} (k : X -> Py.result Y) (a : X) :
  mbind k (Py.Ok a) = k a.
Proof. reflexivity. Qed.

(** The exposure totals of a route are not negative. *)
Lemma exposure_totals_nonneg {L : math.laws M} (coords : list coord)
    (total_duration : Q) (dt : datetime) :
  0 <= total_duration ->
  exists totals,
    compute_exposure coords total_duration dt = Py.Ok totals
    /\ nonneg_totals totals.
Proof.
  intros Hd.
  destruct (Qeq_dec (total_distance coords) 0) as [Hz | Hnz].
  - exists zero_totals. split; [apply exposure_guard; exact Hz |].
    unfold nonneg_totals; cbn; repeat split; lra.
  - assert (Hpos : 0 < total_distance coords).
    { pose proof (sum_dist_nonneg _ (items_nonneg (segments coords))) as H.
      rewrite <- total_distance_sum in H. lra. }
    pose proof (samples_from_nonneg (total_distance coords) total_duration
                  dt _ Hpos Hd (items_nonneg (segments coords))) as Hnn.
    eexists. split; [apply exposure_run; exact Hnz |].
    apply fold_nonneg; [exact Hnn |].
    unfold nonneg_totals. cbn. repeat split; lra.
Qed.

(** The seat list of totals that are not negative. *)
Lemma seat_list_of_nonneg (exposure : ExposureTotals) (total_rows : Z) :
  nonneg_totals exposure ->
  exists seats,
    build_seat_list exposure total_rows = Py.Ok seats
    /\ length seats = (5 * Z.to_nat total_rows)%nat
    /\ Forall (fun s => 0 <= exposure_ratio s /\ exposure_ratio s <= 1)
         seats.
Proof.
  intros Hnn.
  destruct (build_seat_list_members exposure total_rows)
    as (entries & Hbuild & Hok).
  destruct (rows_loop_length exposure total_rows
              (Py.range2 1 (total_rows + 1)) []) as (entries' & Hrun & Hlen).
  { intros r Hr. apply in_range2 in Hr. lia. }
  pose proof (build_seat_list_rated _ _ _ Hrun) as Hbuild'.
  rewrite Hbuild' in Hbuild. injection Hbuild as Hsame.
  eexists. split; [exact Hbuild' |]. split.
  - rewrite length_map, Hlen. unfold Py.range2.
    rewrite length_map, length_seq. cbn [length].
    replace (total_rows + 1 - 1)%Z with total_rows by lia. lia.
  - rewrite Hsame.
    pose proof (max_default_ge (map e_exposure_minutes entries) 0) as Hmax.
    rewrite List.Forall_map in Hmax.
    rewrite List.Forall_forall in Hmax, Hok.
    apply List.Forall_map, List.Forall_forall. intros e He.
    apply rated_ratio_range; [| apply Hmax; exact He].
    destruct (Hok e He) as (Hrow & m & Hm & ->).
    apply round_nonneg.
    pose proof (side_base_nonneg exposure total_rows (e_row e) (e_side e)
                  Hnn Hrow) as Hbase.
    destruct (multiplier_range _ _ _ Hm) as [Hm0 _]. nra.
Qed.

(** X23: with a square root and an arctangent that are not negative and
    a duration that is not negative, every response the endpoint
    computes has sixty seats, every ratio between 0 and 1, and four
    reported minutes none of which is negative. *)
Theorem recommendation_well_formed {L : math.laws M} (coords : list coord)
    (total_duration : Q) (dt : datetime) (resp : Response) :
  0 <= total_duration ->
  recommendation coords total_duration dt = Py.Ok resp ->
  length (seats resp) = 60%nat
  /\ Forall (fun s => 0 <= exposure_ratio s /\ exposure_ratio s <= 1)
       (seats resp)
  /\ 0 <= front_left_minutes resp /\ 0 <= back_left_minutes resp
  /\ 0 <= front_right_minutes resp /\ 0 <= back_right_minutes resp.
Proof.
  intros Hd Hresp.
  destruct (exposure_totals_nonneg coords total_duration dt Hd)
    as (totals & Hrun & Hnn).
  destruct (seat_list_of_nonneg totals TOTAL_ROWS Hnn)
    as (sl & Hbuild & Hlen & Hratio).
  destruct Hnn as (H1 & H2 & H3 & H4).
  unfold recommendation in Hresp.
  rewrite Hrun, bind_ok, Hbuild, bind_ok in Hresp.
  injection Hresp as <-.
  cbn [seats front_left_minutes back_left_minutes front_right_minutes
         back_right_minutes].
  split; [exact Hlen |]. split; [exact Hratio |].
  repeat split; apply round_nonneg; assumption.
Qed.

End ResponseFacts.

(** X23 on a one-kilometre hop east from (77 E, 13 N), one hour. *)
Lemma recommendation_well_formed_witness :
  exists resp,
    @recommendation Rational.math_lib (Rational.fixed_sun 180 45)
      [(77, 13); (7701 # 100, 13)]%Q 3600%Q 0%Z = Py.Ok resp
    /\ length (seats resp) = 60%nat
    /\ Forall (fun s => (0 <= exposure_ratio s /\ exposure_ratio s <= 1)%Q)
         (seats resp)
    /\ (0 <= front_left_minutes resp)%Q /\ (0 <= back_left_minutes resp)%Q
    /\ (0 <= front_right_minutes resp)%Q
    /\ (0 <= back_right_minutes resp)%Q.
Proof.
  eexists. split; [vm_compute; reflexivity |].
  apply (@recommendation_well_formed Rational.math_lib
           (Rational.fixed_sun 180 45) rational_math_laws
           [(77, 13); (7701 # 100, 13)]%Q 3600%Q 0%Z).
  - vm_compute. discriminate.
  - vm_compute. reflexivity.
Defined.

(* ===================================================================== *)
(** ** Binary64 rounding and the range of [normalize] *)
(* ===================================================================== *)

Section Binary64.
Local Open Scope Q_scope.

(** *** Powers of two *)

Lemma pow2_pos (e : Z) : 0 < 2 ^ e.
Proof. apply Qpower_0_lt. reflexivity. Qed.

Lemma pow2_plus (a b : Z) : 2 ^ (a + b) == 2 ^ a * 2 ^ b.
Proof. apply Qpower_plus. discriminate. Qed.

Lemma pow2_le (a b : Z) : (a <= b)%Z -> 2 ^ a <= 2 ^ b.
Proof. intros H. apply Qpower_le_compat_l; [exact H | discriminate]. Qed.

Lemma pow2_between (a b : Z) (t : Q) : 2 ^ a <= t -> t < 2 ^ b -> (a < b)%Z.
Proof.
  intros Hlo Hhi. apply (Qpower_lt_compat_l_inv 2); [| reflexivity].
  apply Qle_lt_trans with t; assumption.
Qed.

Lemma pow2_Z (n : Z) : (0 <= n)%Z -> inject_Z (2 ^ n) == 2 ^ n.
Proof. intros H. apply (Zpower_Qpower 2 n H). Qed.

Lemma pow2_div (a b : Z) : 2 ^ a / 2 ^ b == 2 ^ (a - b).
Proof.
  unfold Z.sub. rewrite pow2_plus, Qpower_opp. reflexivity.
Qed.

(** *** The binary exponent of a rational *)

Lemma Qmake_times_den (n : Z) (d : positive) :
  (n # d) * inject_Z (Zpos d) == inject_Z n.
Proof. unfold Qeq. simpl. rewrite Pos.mul_1_r. ring. Qed.

Lemma Qlog2_spec (q : Q) :
  0 < q -> 2 ^ Py.Qlog2 q <= q /\ q < 2 ^ (Py.Qlog2 q + 1).
Proof.
  intros Hq. destruct q as [n d].
  assert (Hn : (0 < n)%Z) by (unfold Qlt in Hq; simpl in Hq; lia).
  pose proof (Qmake_times_den n d) as Hnd.
  assert (Hd : 0 < inject_Z (Zpos d)) by reflexivity.
  destruct (Z.log2_spec n Hn) as [Hn1 Hn2].
  destruct (Z.log2_spec (Zpos d) (Pos2Z.is_pos d)) as [Hd1 Hd2].
  pose proof (Z.log2_nonneg n) as Ha. pose proof (Z.log2_nonneg (Zpos d)) as Hb.
  rewrite Zle_Qle, pow2_Z in Hn1 by lia.
  rewrite Zlt_Qlt, pow2_Z in Hn2 by lia.
  rewrite Zle_Qle, pow2_Z in Hd1 by lia.
  rewrite Zlt_Qlt, pow2_Z in Hd2 by lia.
  unfold Py.Qlog2. cbn [Qnum Qden].
  set (a := Z.log2 n) in *. set (b := Z.log2 (Zpos d)) in *.
  set (q := n # d) in *.
  destruct (Qle_bool (2 ^ (a - b)) q) eqn:E.
  - apply Qle_bool_iff in E. split; [exact E |].
    apply (Qmult_lt_r _ _ (inject_Z (Zpos d)) Hd). rewrite Hnd.
    apply Qlt_le_trans with (2 ^ Z.succ a); [exact Hn2 |].
    replace (Z.succ a) with ((a - b + 1) + b)%Z by lia.
    rewrite (pow2_plus (a - b + 1) b).
    apply Qmult_le_l; [apply pow2_pos | exact Hd1].
  - apply Qle_bool_false in E.
    replace (a - b - 1 + 1)%Z with (a - b)%Z by lia.
    split; [| exact E].
    apply (Qmult_le_r _ _ (inject_Z (Zpos d)) Hd). rewrite Hnd.
    apply Qle_trans with (2 ^ a); [| exact Hn1].
    replace a with ((a - b - 1) + Z.succ b)%Z at 2 by lia.
    rewrite (pow2_plus (a - b - 1) (Z.succ b)).
    apply Qmult_le_l; [apply pow2_pos | apply Qlt_le_weak; exact Hd2].
Qed.

Lemma Qlog2_unique (q : Q) (a : Z) :
  2 ^ a <= q -> q < 2 ^ (a + 1) -> Py.Qlog2 q = a.
Proof.
  intros Hlo Hhi.
  assert (Hq : 0 < q) by (apply Qlt_le_trans with (2 ^ a); [apply pow2_pos | exact Hlo]).
  destruct (Qlog2_spec q Hq) as [Hlo' Hhi'].
  pose proof (pow2_between _ _ _ Hlo Hhi').
  pose proof (pow2_between _ _ _ Hlo' Hhi).
  lia.
Qed.

Lemma Qlog2_proper (x y : Q) : 0 < x -> x == y -> Py.Qlog2 x = Py.Qlog2 y.
Proof.
  intros Hx Hxy. destruct (Qlog2_spec x Hx) as [Hlo Hhi].
  symmetry. apply Qlog2_unique; rewrite <- Hxy; assumption.
Qed.

Lemma Qlog2_monotone (x y : Q) : 0 < x -> x <= y -> (Py.Qlog2 x <= Py.Qlog2 y)%Z.
Proof.
  intros Hx Hxy.
  assert (Hy : 0 < y) by lra.
  destruct (Qlog2_spec x Hx) as [Hlo _].
  destruct (Qlog2_spec y Hy) as [_ Hhi].
  assert (H : (Py.Qlog2 x < Py.Qlog2 y + 1)%Z).
  { apply (pow2_between _ _ x); [exact Hlo | lra]. }
  lia.
Qed.

(** *** The exponent of the last place *)

Lemma cexp_min (q : Q) : (-1074 <= Py.cexp q)%Z.
Proof. unfold Py.cexp. lia. Qed.

Lemma cexp_above (q : Q) : 0 < q -> q < 2 ^ (Py.cexp q + 53).
Proof.
  intros Hq. destruct (Qlog2_spec q Hq) as [_ Hhi].
  apply Qlt_le_trans with (2 ^ (Py.Qlog2 q + 1)); [exact Hhi |].
  apply pow2_le. unfold Py.cexp. lia.
Qed.

Lemma cexp_below (q : Q) :
  0 < q -> (-1074 < Py.cexp q)%Z -> 2 ^ (Py.cexp q + 52) <= q.
Proof.
  intros Hq He. destruct (Qlog2_spec q Hq) as [Hlo _].
  replace (Py.cexp q + 52)%Z with (Py.Qlog2 q); [exact Hlo |].
  unfold Py.cexp in *. lia.
Qed.

Lemma cexp_monotone (x y : Q) : 0 < x -> x <= y -> (Py.cexp x <= Py.cexp y)%Z.
Proof.
  intros Hx Hxy. pose proof (Qlog2_monotone x y Hx Hxy). unfold Py.cexp. lia.
Qed.

Lemma cexp_proper (x y : Q) : 0 < x -> x == y -> Py.cexp x = Py.cexp y.
Proof.
  intros Hx Hxy. unfold Py.cexp. rewrite (Qlog2_proper x y Hx Hxy). reflexivity.
Qed.

(** *** Rounding a positive magnitude *)

Lemma round_half_even_Z (n : Z) : Py.round_half_even (inject_Z n) = n.
Proof.
  pose proof (round_half_even_lower n (inject_Z n) (Qle_refl _)).
  pose proof (round_half_even_upper n (inject_Z n) (Qle_refl _)).
  lia.
Qed.

Lemma scaled_below (q : Q) : 0 < q -> q / 2 ^ Py.cexp q < inject_Z (2 ^ 53).
Proof.
  intros Hq. apply Qlt_shift_div_r; [apply pow2_pos |].
  rewrite pow2_Z by lia. rewrite <- pow2_plus.
  rewrite Z.add_comm. apply cexp_above. exact Hq.
Qed.

Lemma scaled_above (q : Q) :
  0 < q -> (-1074 < Py.cexp q)%Z -> inject_Z (2 ^ 52) <= q / 2 ^ Py.cexp q.
Proof.
  intros Hq He. apply Qle_shift_div_l; [apply pow2_pos |].
  rewrite pow2_Z by lia. rewrite <- pow2_plus.
  rewrite Z.add_comm. apply cexp_below; assumption.
Qed.

Lemma fl_pos_nonneg (q : Q) : 0 < q -> 0 <= Py.fl_pos q.
Proof.
  intros Hq. unfold Py.fl_pos.
  apply Qmult_le_0_compat; [| apply Qlt_le_weak, pow2_pos].
  change 0 with (inject_Z 0). rewrite <- Zle_Qle.
  apply round_half_even_lower. change (inject_Z 0) with 0.
  apply Qle_shift_div_l; [apply pow2_pos | lra].
Qed.

Lemma fl_pos_le (q : Q) : 0 < q -> Py.fl_pos q <= 2 ^ (Py.cexp q + 53).
Proof.
  intros Hq. unfold Py.fl_pos.
  rewrite Z.add_comm, pow2_plus, <- (pow2_Z 53) by lia.
  apply Qmult_le_compat_r; [| apply Qlt_le_weak, pow2_pos].
  rewrite <- Zle_Qle. apply round_half_even_upper.
  apply Qlt_le_weak, scaled_below. exact Hq.
Qed.

Lemma fl_pos_ge (q : Q) :
  0 < q -> (-1074 < Py.cexp q)%Z -> 2 ^ (Py.cexp q + 52) <= Py.fl_pos q.
Proof.
  intros Hq He. unfold Py.fl_pos.
  rewrite Z.add_comm, pow2_plus, <- (pow2_Z 52) by lia.
  apply Qmult_le_compat_r; [| apply Qlt_le_weak, pow2_pos].
  rewrite <- Zle_Qle. apply round_half_even_lower.
  apply scaled_above; assumption.
Qed.

Lemma fl_pos_monotone (x y : Q) : 0 < x -> x <= y -> Py.fl_pos x <= Py.fl_pos y.
Proof.
  intros Hx Hxy.
  assert (Hy : 0 < y) by lra.
  pose proof (cexp_monotone x y Hx Hxy) as He.
  destruct (Z.eq_dec (Py.cexp x) (Py.cexp y)) as [Heq | Hne].
  - unfold Py.fl_pos. rewrite Heq.
    apply Qmult_le_compat_r; [| apply Qlt_le_weak, pow2_pos].
    rewrite <- Zle_Qle. apply round_half_even_monotone.
    apply Qmult_le_compat_r; [exact Hxy |].
    apply Qlt_le_weak, Qinv_lt_0_compat, pow2_pos.
  - apply Qle_trans with (2 ^ (Py.cexp x + 53)); [apply fl_pos_le; exact Hx |].
    apply Qle_trans with (2 ^ (Py.cexp y + 52)).
    + apply pow2_le. lia.
    + apply fl_pos_ge; [exact Hy |]. pose proof (cexp_min x). lia.
Qed.

Lemma fl_pos_proper (x y : Q) : 0 < x -> x == y -> Py.fl_pos x == Py.fl_pos y.
Proof.
  intros Hx Hxy. unfold Py.fl_pos.
  rewrite (cexp_proper x y Hx Hxy).
  assert (Hs : x / 2 ^ Py.cexp y == y / 2 ^ Py.cexp y) by (rewrite Hxy; reflexivity).
  rewrite (round_half_even_proper _ _ Hs). reflexivity.
Qed.

(** A magnitude with at most 53 significant bits and an exponent in
    range is returned as it is. *)
Lemma fl_pos_exact_lt (q : Q) (k e : Z) :
  (0 < k < 2 ^ 53)%Z -> (-1074 <= e)%Z -> q == inject_Z k * 2 ^ e ->
  Py.fl_pos q == q.
Proof.
  intros Hk He Hq.
  assert (Hk0 : 0 < inject_Z k) by (change 0 with (inject_Z 0); rewrite <- Zlt_Qlt; lia).
  assert (Hpos : 0 < q).
  { rewrite Hq. apply Qmult_lt_0_compat; [exact Hk0 | apply pow2_pos]. }
  assert (Hle : (Py.cexp q <= e)%Z).
  { destruct (Qlog2_spec q Hpos) as [Hlo _].
    assert (Hlt : q < 2 ^ (e + 53)).
    { rewrite Hq, Z.add_comm, pow2_plus, <- (pow2_Z 53) by lia.
      apply Qmult_lt_r; [apply pow2_pos |]. rewrite <- Zlt_Qlt. lia. }
    pose proof (pow2_between _ _ _ Hlo Hlt). unfold Py.cexp. lia. }
  set (c := Py.cexp q) in *.
  assert (Hscaled : q / 2 ^ c == inject_Z (k * 2 ^ (e - c))).
  { rewrite inject_Z_mult, pow2_Z by lia. rewrite Hq.
    rewrite <- pow2_div. field.
    intros H. pose proof (pow2_pos c). lra. }
  unfold Py.fl_pos. fold c.
  rewrite (round_half_even_proper _ _ Hscaled), round_half_even_Z.
  rewrite <- Hscaled. field.
  intros H. pose proof (pow2_pos c). lra.
Qed.

Lemma fl_pos_exact (q : Q) (k e : Z) :
  (0 < k <= 2 ^ 53)%Z -> (-1074 <= e)%Z -> q == inject_Z k * 2 ^ e ->
  Py.fl_pos q == q.
Proof.
  intros Hk He Hq.
  destruct (Z.eq_dec k (2 ^ 53)%Z) as [-> | Hne].
  - apply (fl_pos_exact_lt q (2 ^ 52) (e + 1)); [lia | lia |].
    rewrite Hq, pow2_plus.
    change (inject_Z (2 ^ 53)) with (inject_Z (2 ^ 52) * 2).
    change (2 ^ 1) with 2. ring.
  - apply (fl_pos_exact_lt q k e); [lia | exact He | exact Hq].
Qed.

(** What rounding returns has at most 53 significant bits. *)
Lemma fl_pos_form (q : Q) :
  0 < q ->
  exists k, (0 <= k <= 2 ^ 53)%Z /\ Py.fl_pos q == inject_Z k * 2 ^ Py.cexp q.
Proof.
  intros Hq. exists (Py.round_half_even (q / 2 ^ Py.cexp q)).
  split; [| reflexivity]. split.
  - apply round_half_even_lower. change (inject_Z 0) with 0.
    apply Qle_shift_div_l; [apply pow2_pos | lra].
  - apply round_half_even_upper, Qlt_le_weak, scaled_below. exact Hq.
Qed.

(** A rounded magnitude of at least [2 ^ j] is a multiple of the last
    place of the binade of [2 ^ j]. *)
Lemma fl_pos_grid (q : Q) (j : Z) :
  0 < q -> 2 ^ j <= Py.fl_pos q ->
  exists n, Py.fl_pos q == inject_Z n * 2 ^ (j - 52).
Proof.
  intros Hq Hj.
  destruct (fl_pos_form q Hq) as (k & Hk & Hform).
  destruct (Z_le_gt_dec (j - 52) (Py.cexp q)) as [Hle | Hgt].
  - exists (k * 2 ^ (Py.cexp q - (j - 52)))%Z.
    rewrite Hform, inject_Z_mult, pow2_Z by lia.
    rewrite <- Qmult_assoc, <- pow2_plus.
    replace (Py.cexp q - (j - 52) + (j - 52))%Z with (Py.cexp q) by lia.
    reflexivity.
  - exists (2 ^ 52)%Z.
    rewrite pow2_Z by lia. rewrite <- pow2_plus.
    replace (52 + (j - 52))%Z with j by lia.
    apply Qle_antisym; [| exact Hj].
    apply Qle_trans with (2 ^ (Py.cexp q + 53)); [apply fl_pos_le; exact Hq |].
    apply pow2_le. lia.
Qed.

(** *** Rounding any rational *)

Lemma fl_of_zero (q : Q) : q == 0 -> Py.fl q = 0.
Proof.
  intros H. unfold Py.fl. destruct (Qcompare_spec q 0); [reflexivity | lra | lra].
Qed.

Lemma fl_of_pos (q : Q) : 0 < q -> Py.fl q = Py.fl_pos q.
Proof.
  intros H. unfold Py.fl. destruct (Qcompare_spec q 0); [lra | lra | reflexivity].
Qed.

Lemma fl_of_neg (q : Q) : q < 0 -> Py.fl q = - Py.fl_pos (- q).
Proof.
  intros H. unfold Py.fl. destruct (Qcompare_spec q 0); [lra | reflexivity | lra].
Qed.

Lemma Qsign_cases (q : Q) : q < 0 \/ q == 0 \/ 0 < q.
Proof.
  destruct (Qlt_le_dec q 0) as [H | H]; [left; exact H |].
  destruct (Qlt_le_dec 0 q) as [H' | H']; [right; right; exact H' |].
  right; left. lra.
Qed.

Lemma fl_nonneg (q : Q) : 0 <= q -> 0 <= Py.fl q.
Proof.
  intros H. destruct (Qsign_cases q) as [Hn | [Hz | Hp]]; [lra | |].
  - rewrite (fl_of_zero q Hz). lra.
  - rewrite (fl_of_pos q Hp). apply fl_pos_nonneg. exact Hp.
Qed.

Lemma fl_nonpos (q : Q) : q <= 0 -> Py.fl q <= 0.
Proof.
  intros H. destruct (Qsign_cases q) as [Hn | [Hz | Hp]]; [| | lra].
  - rewrite (fl_of_neg q Hn).
    assert (Hp : 0 < - q) by lra.
    pose proof (fl_pos_nonneg (- q) Hp). lra.
  - rewrite (fl_of_zero q Hz). lra.
Qed.

(** Rounding keeps the order. *)
Lemma fl_monotone (x y : Q) : x <= y -> Py.fl x <= Py.fl y.
Proof.
  intros Hxy.
  destruct (Qsign_cases x) as [Hx | [Hx | Hx]].
  - destruct (Qlt_le_dec y 0) as [Hy | Hy].
    + rewrite (fl_of_neg x Hx), (fl_of_neg y Hy).
      assert (H : Py.fl_pos (- y) <= Py.fl_pos (- x))
        by (apply fl_pos_monotone; lra).
      lra.
    + apply Qle_trans with 0; [apply fl_nonpos; lra | apply fl_nonneg; exact Hy].
  - rewrite (fl_of_zero x Hx). apply fl_nonneg. lra.
  - assert (Hy : 0 < y) by lra.
    rewrite (fl_of_pos x Hx), (fl_of_pos y Hy).
    apply fl_pos_monotone; assumption.
Qed.

Lemma fl_proper (x y : Q) : x == y -> Py.fl x == Py.fl y.
Proof.
  intros Hxy.
  destruct (Qsign_cases x) as [Hx | [Hx | Hx]].
  - assert (Hy : y < 0) by lra.
    rewrite (fl_of_neg x Hx), (fl_of_neg y Hy).
    assert (H : Py.fl_pos (- x) == Py.fl_pos (- y))
      by (apply fl_pos_proper; [lra | rewrite Hxy; reflexivity]).
    rewrite H. reflexivity.
  - assert (Hy : y == 0) by lra.
    rewrite (fl_of_zero x Hx), (fl_of_zero y Hy). reflexivity.
  - assert (Hy : 0 < y) by lra.
    rewrite (fl_of_pos x Hx), (fl_of_pos y Hy).
    apply fl_pos_proper; assumption.
Qed.

(** A number with at most 53 significant bits and an exponent in range
    is a binary64 value. *)
Lemma fl_exact (q : Q) (k e : Z) :
  (- 2 ^ 53 <= k <= 2 ^ 53)%Z -> (-1074 <= e)%Z -> q == inject_Z k * 2 ^ e ->
  Py.fl q == q.
Proof.
  intros Hk He Hq.
  pose proof (pow2_pos e) as Hp.
  destruct (Z.lt_trichotomy k 0) as [Hneg | [-> | Hpos]].
  - assert (Hk' : inject_Z k < 0)
      by (change 0 with (inject_Z 0); rewrite <- Zlt_Qlt; exact Hneg).
    assert (Hq' : q < 0) by (rewrite Hq; nra).
    rewrite (fl_of_neg q Hq').
    rewrite (fl_pos_exact (- q) (- k) e); [ring | lia | exact He |].
    rewrite Hq, inject_Z_opp. ring.
  - assert (Hz : q == 0) by (rewrite Hq; change (inject_Z 0) with 0; ring).
    rewrite (fl_of_zero q Hz). symmetry. exact Hz.
  - assert (Hk' : 0 < inject_Z k)
      by (change 0 with (inject_Z 0); rewrite <- Zlt_Qlt; exact Hpos).
    assert (Hq' : 0 < q) by (rewrite Hq; nra).
    rewrite (fl_of_pos q Hq').
    apply (fl_pos_exact q k e); [lia | exact He | exact Hq].
Qed.

(** A rounded number is a binary64 value. *)
Lemma fl_idempotent (q : Q) : Py.fl (Py.fl q) == Py.fl q.
Proof.
  destruct (Qsign_cases q) as [Hq | [Hq | Hq]].
  - rewrite (fl_of_neg q Hq).
    assert (Hp : 0 < - q) by lra.
    destruct (fl_pos_form (- q) Hp) as (k & Hk & Hform).
    apply (fl_exact _ (- k) (Py.cexp (- q))); [lia | apply cexp_min |].
    rewrite Hform, inject_Z_opp. ring.
  - rewrite (fl_of_zero q Hq). reflexivity.
  - rewrite (fl_of_pos q Hq).
    destruct (fl_pos_form q Hq) as (k & Hk & Hform).
    apply (fl_exact _ k (Py.cexp q)); [lia | apply cexp_min | exact Hform].
Qed.

(** A binary64 value of magnitude at least [2 ^ j] is a multiple of the
    last place of the binade of [2 ^ j]. *)
Lemma fl_grid (q : Q) (j : Z) :
  Py.fl q == q -> 2 ^ j <= q ->
  exists n, q == inject_Z n * 2 ^ (j - 52).
Proof.
  intros Hrep Hj.
  assert (Hq : 0 < q) by (pose proof (pow2_pos j); lra).
  rewrite (fl_of_pos q Hq) in Hrep.
  destruct (fl_pos_grid q j Hq) as (n & Hn); [lra |].
  exists n. rewrite <- Hrep. exact Hn.
Qed.

(** *** The float remainder and [normalize] *)

Lemma fl_0 : Py.fl 0 == 0. Proof. reflexivity. Qed.
Lemma fl_360 : Py.fl 360 == 360. Proof. vm_compute. reflexivity. Qed.
Lemma fl_m360 : Py.fl (-360) == -360. Proof. vm_compute. reflexivity. Qed.
Lemma fl_180 : Py.fl 180 == 180. Proof. vm_compute. reflexivity. Qed.
Lemma fl_m180 : Py.fl (-180) == -180. Proof. vm_compute. reflexivity. Qed.
Lemma fl_m90 : Py.fl (-90) == -90. Proof. vm_compute. reflexivity. Qed.
Lemma fl_pos_90 : Py.fl_pos 90 == 90. Proof. vm_compute. reflexivity. Qed.
Lemma fl_pos_180 : Py.fl_pos 180 == 180. Proof. vm_compute. reflexivity. Qed.

Lemma fl_lower (c x : Q) : Py.fl c == c -> c <= x -> c <= Py.fl x.
Proof.
  intros Hc Hx. apply Qle_trans with (Py.fl c).
  - rewrite Hc. apply Qle_refl.
  - apply fl_monotone. exact Hx.
Qed.

Lemma fl_upper (c x : Q) : Py.fl c == c -> x <= c -> Py.fl x <= c.
Proof.
  intros Hc Hx. apply Qle_trans with (Py.fl c).
  - apply fl_monotone. exact Hx.
  - rewrite Hc. apply Qle_refl.
Qed.

Lemma trunc_remainder (y : Q) :
  -360 <= y - 360 * inject_Z (Py.Qtrunc (y / 360))
  /\ y - 360 * inject_Z (Py.Qtrunc (y / 360)) <= 360.
Proof.
  assert (Hy : y == 360 * (y / 360)) by field.
  unfold Py.Qtrunc. destruct (Qle_bool 0 (y / 360)).
  - pose proof (Qfloor_le (y / 360)) as Hlo.
    pose proof (Qlt_floor (y / 360)) as Hhi.
    rewrite inject_Z_plus in Hhi. change (inject_Z 1) with 1 in Hhi.
    set (f := inject_Z (Qfloor (y / 360))) in *. split; lra.
  - pose proof (Qle_ceiling (y / 360)) as Hhi.
    pose proof (Qceiling_lt (y / 360)) as Hlo.
    unfold Z.sub in Hlo. rewrite inject_Z_plus in Hlo.
    change (inject_Z (- (1))) with (-1) in Hlo.
    set (c := inject_Z (Qceiling (y / 360))) in *. split; lra.
Qed.

Lemma fmod_360_range (a : Q) : -360 <= Py.fmod a 360 /\ Py.fmod a 360 <= 360.
Proof.
  unfold Py.fmod. destruct (trunc_remainder a) as [Hlo Hhi]. split.
  - apply fl_lower; [exact fl_m360 | exact Hlo].
  - apply fl_upper; [exact fl_360 | exact Hhi].
Qed.

(** When the float remainder by 360 takes the branch that adds 360. *)
Lemma float_mod_360_cases (a : Q) :
  (Py.fmod a 360 < 0 /\ Py.float_mod a 360 = Py.fl (Py.fmod a 360 + 360))
  \/ (0 <= Py.fmod a 360 /\ Py.float_mod a 360 = Py.fmod a 360).
Proof.
  unfold Py.float_mod. set (r := Py.fmod a 360).
  change (Py.Qltb 360 0) with false.
  destruct (Qeq_bool r 0) eqn:Ez; cbn [negb andb].
  - right. apply Qeq_bool_iff in Ez. split; [lra | reflexivity].
  - destruct (Py.Qltb r 0) eqn:El; cbn [Bool.eqb negb].
    + left. apply Qltb_true in El. split; [exact El | reflexivity].
    + right. apply Qltb_false in El. split; [exact El | reflexivity].
Qed.

Lemma float_mod_360_range (a : Q) :
  0 <= Py.float_mod a 360 /\ Py.float_mod a 360 <= 360.
Proof.
  destruct (fmod_360_range a) as [Hlo Hhi].
  destruct (float_mod_360_cases a) as [[Hneg ->] | [Hpos ->]].
  - split.
    + apply fl_nonneg. lra.
    + apply fl_upper; [exact fl_360 | lra].
  - split; assumption.
Qed.

Lemma float_mod_360_rounded (a : Q) :
  Py.fl (Py.float_mod a 360) == Py.float_mod a 360.
Proof.
  destruct (float_mod_360_cases a) as [[_ ->] | [_ ->]].
  - apply fl_idempotent.
  - unfold Py.fmod. apply fl_idempotent.
Qed.

(** C5, as the code has it: every normalized angle lies in the closed
    interval from -180 to 180.  Both ends are reached: -180 at 180, and
    180 at the binary64 value just below -180, where the remainder
    rounds up to 360. *)
Theorem normalize_range (x : Q) : -180 <= normalize x /\ normalize x <= 180.
Proof.
  unfold normalize.
  destruct (float_mod_360_range (Py.fl (x + 180))) as [Hlo Hhi].
  split.
  - apply fl_lower; [exact fl_m180 | lra].
  - apply fl_upper; [exact fl_180 | lra].
Qed.

(** A binary64 value in [0, 360) is its own float remainder by 360. *)
Lemma float_mod_360_small (a : Q) :
  0 <= a -> a < 360 -> Py.fl a == a -> Py.float_mod a 360 == a.
Proof.
  intros Hlo Hhi Hrep.
  assert (Ht : Py.Qtrunc (a / 360) = 0%Z).
  { unfold Py.Qtrunc.
    assert (H0 : 0 <= a / 360) by (apply Qle_shift_div_l; lra).
    assert (H1 : a / 360 < 1) by (apply Qlt_shift_div_r; lra).
    apply Qle_bool_iff in H0 as Hb. rewrite Hb.
    pose proof (Qfloor_le (a / 360)) as Ha.
    pose proof (Qlt_floor (a / 360)) as Hb'.
    rewrite inject_Z_plus in Hb'. change (inject_Z 1) with 1 in Hb'.
    assert (Hc : (Qfloor (a / 360) < 1)%Z).
    { rewrite Zlt_Qlt. change (inject_Z 1) with 1. lra. }
    assert (Hd : (-1 < Qfloor (a / 360))%Z).
    { rewrite Zlt_Qlt. change (inject_Z (-1)) with (-1). lra. }
    lia. }
  assert (Hr : Py.fmod a 360 == a).
  { unfold Py.fmod. rewrite Ht. rewrite <- Hrep at 2. apply fl_proper.
    change (inject_Z 0) with 0. ring. }
  destruct (float_mod_360_cases a) as [[Hneg _] | [_ ->]].
  - exfalso. lra.
  - exact Hr.
Qed.

(** Adding 180 back to a rounded [m - 180] is exact, for a binary64
    [m] in [0, 360). *)
Lemma shift_back_exact (m : Q) :
  0 <= m -> m < 360 -> Py.fl m == m ->
  Py.fl (Py.fl (m - 180) + 180) == Py.fl (m - 180) + 180
  /\ 0 <= Py.fl (m - 180) + 180 /\ Py.fl (m - 180) + 180 < 360.
Proof.
  intros Hlo Hhi Hrep.
  assert (Hexact : forall k e,
            (- 2 ^ 53 <= k <= 2 ^ 53)%Z -> (-1074 <= e)%Z ->
            m - 180 == inject_Z k * 2 ^ e ->
            Py.fl (Py.fl (m - 180) + 180) == Py.fl (m - 180) + 180
            /\ 0 <= Py.fl (m - 180) + 180 /\ Py.fl (m - 180) + 180 < 360).
  { intros k e Hk He Hform.
    pose proof (fl_exact (m - 180) k e Hk He Hform) as Hy.
    assert (Hback : Py.fl (m - 180) + 180 == m) by (rewrite Hy; ring).
    split; [| split].
    - rewrite (fl_proper _ _ Hback), Hrep. symmetry. exact Hback.
    - rewrite Hback. exact Hlo.
    - rewrite Hback. exact Hhi. }
  destruct (Qlt_le_dec m 90) as [Hsmall | Hmid].
  - (* the difference rounds into [-180, -90] *)
    assert (Hneg : m - 180 < 0) by lra.
    assert (Hy : Py.fl (m - 180) = - Py.fl_pos (- (m - 180)))
      by (apply fl_of_neg; exact Hneg).
    assert (Hp : 0 < - (m - 180)) by lra.
    assert (H90 : 90 <= Py.fl_pos (- (m - 180))).
    { apply Qle_trans with (Py.fl_pos 90).
      - rewrite fl_pos_90. apply Qle_refl.
      - apply fl_pos_monotone; lra. }
    assert (H180 : Py.fl_pos (- (m - 180)) <= 180).
    { apply Qle_trans with (Py.fl_pos 180).
      - apply fl_pos_monotone; lra.
      - rewrite fl_pos_180. apply Qle_refl. }
    destruct (fl_pos_grid (- (m - 180)) 6 Hp) as (n & Hn).
    { change (2 ^ 6) with 64. lra. }
    change (2 ^ (6 - 52)) with (1 # 70368744177664) in Hn.
    rewrite Hy.
    set (p := Py.fl_pos (- (m - 180))) in *.
    assert (Hform : - p + 180
                    == inject_Z (12666373951979520 - n) * 2 ^ (-46)).
    { change (2 ^ (-46)) with (1 # 70368744177664).
      unfold Z.sub. rewrite inject_Z_plus, inject_Z_opp, Hn.
      change (inject_Z 12666373951979520) with 12666373951979520.
      field. }
    assert (Hnlo : (6333186975989760 <= n)%Z).
    { rewrite Zle_Qle. rewrite Hn in H90.
      change (inject_Z 6333186975989760) with 6333186975989760. lra. }
    assert (Hnhi : (n <= 12666373951979520)%Z).
    { rewrite Zle_Qle. rewrite Hn in H180.
      change (inject_Z 12666373951979520) with 12666373951979520. lra. }
    split; [| split; lra].
    apply (fl_exact _ (12666373951979520 - n) (-46)); [lia | lia | exact Hform].
  - destruct (Qlt_le_dec 270 m) as [Hbig | Hle].
    + (* m in (270, 360): a multiple of 2^-44 *)
      destruct (fl_grid m 8 Hrep) as (n & Hn).
      { change (2 ^ 8) with 256. lra. }
      change (2 ^ (8 - 52)) with (1 # 17592186044416) in Hn.
      apply (Hexact (n - 3166593487994880)%Z (-44)%Z); [| lia |].
      * assert (H1 : (4749890231992320 <= n)%Z).
        { rewrite Zle_Qle. rewrite Hn in Hbig.
          change (inject_Z 4749890231992320) with 4749890231992320. lra. }
        assert (H2 : (n <= 6333186975989760)%Z).
        { rewrite Zle_Qle. rewrite Hn in Hhi.
          change (inject_Z 6333186975989760) with 6333186975989760. lra. }
        lia.
      * change (2 ^ (-44)) with (1 # 17592186044416).
        unfold Z.sub. rewrite inject_Z_plus, inject_Z_opp, Hn.
        change (inject_Z 3166593487994880) with 3166593487994880.
        field.
    + (* m in [90, 270]: a multiple of 2^-46 *)
      destruct (fl_grid m 6 Hrep) as (n & Hn).
      { change (2 ^ 6) with 64. lra. }
      change (2 ^ (6 - 52)) with (1 # 70368744177664) in Hn.
      apply (Hexact (n - 12666373951979520)%Z (-46)%Z); [| lia |].
      * assert (H1 : (6333186975989760 <= n)%Z).
        { rewrite Zle_Qle. rewrite Hn in Hmid.
          change (inject_Z 6333186975989760) with 6333186975989760. lra. }
        assert (H2 : (n <= 18999560927969280)%Z).
        { rewrite Zle_Qle. rewrite Hn in Hle.
          change (inject_Z 18999560927969280) with 18999560927969280. lra. }
        lia.
      * change (2 ^ (-46)) with (1 # 70368744177664).
        unfold Z.sub. rewrite inject_Z_plus, inject_Z_opp, Hn.
        change (inject_Z 12666373951979520) with 12666373951979520.
        field.
Qed.

Lemma shift_180_back (y : Q) : y + 180 - 180 == y.
Proof. ring. Qed.

(** C8, as the code has it: normalizing a normalized angle changes
    nothing, unless the normalized angle is 180. *)
Theorem normalize_idempotent (x : Q) :
  normalize x < 180 -> normalize (normalize x) == normalize x.
Proof.
  intros Hx. unfold normalize in Hx.
  set (m := Py.float_mod (Py.fl (x + 180)) 360) in *.
  destruct (float_mod_360_range (Py.fl (x + 180))) as [Hlo Hhi]. fold m in Hlo, Hhi.
  pose proof (float_mod_360_rounded (Py.fl (x + 180))) as Hrep. fold m in Hrep.
  assert (Hlt : m < 360).
  { destruct (Qlt_le_dec m 360) as [H | H]; [exact H |].
    exfalso. assert (Heq : m - 180 == 180) by lra.
    rewrite (fl_proper _ _ Heq), fl_180 in Hx. lra. }
  destruct (shift_back_exact m Hlo Hlt Hrep) as (Hback & Hb0 & Hb1).
  unfold normalize. fold m.
  set (y := Py.fl (m - 180)) in *.
  assert (Ha : Py.float_mod (Py.fl (y + 180)) 360 == y + 180).
  { apply Qeq_trans with (Py.fl (y + 180)); [| exact Hback].
    apply float_mod_360_small.
    - rewrite Hback. exact Hb0.
    - rewrite Hback. exact Hb1.
    - apply fl_idempotent. }
  apply Qeq_trans with (Py.fl y).
  - apply fl_proper. rewrite Ha. apply shift_180_back.
  - unfold y. apply fl_idempotent.
Qed.

(** X2: an angle in [-180, 180) that is a multiple of [2 ^ -44] is its
    own normal form: none of the three operations rounds.  Every
    integer and every multiple of 1/1024 of a degree is such an angle;
    0.1 is not. *)
Theorem normalize_fixed (k : Z) :
  (- 3166593487994880 <= k < 3166593487994880)%Z ->
  normalize (inject_Z k * 2 ^ (-44)) == inject_Z k * 2 ^ (-44).
Proof.
  intros Hk. set (x := inject_Z k * 2 ^ (-44)).
  assert (Hx : x == inject_Z k * (1 # 17592186044416)) by reflexivity.
  assert (Hlo : -180 <= x).
  { assert (H : inject_Z (- 3166593487994880) <= inject_Z k)
      by (rewrite <- Zle_Qle; lia).
    change (inject_Z (- 3166593487994880)) with (- 3166593487994880) in H.
    lra. }
  assert (Hhi : x < 180).
  { assert (H : inject_Z k < inject_Z 3166593487994880)
      by (rewrite <- Zlt_Qlt; lia).
    change (inject_Z 3166593487994880) with 3166593487994880 in H.
    lra. }
  assert (Hsum : Py.fl (x + 180) == x + 180).
  { apply (fl_exact _ (k + 3166593487994880) (-44)); [lia | lia |].
    change (2 ^ (-44)) with (1 # 17592186044416).
    rewrite inject_Z_plus, Hx.
    change (inject_Z 3166593487994880) with 3166593487994880. field. }
  assert (Hmod : Py.float_mod (Py.fl (x + 180)) 360 == x + 180).
  { apply Qeq_trans with (Py.fl (x + 180)); [| exact Hsum].
    apply float_mod_360_small.
    - rewrite Hsum. lra.
    - rewrite Hsum. lra.
    - apply fl_idempotent. }
  unfold normalize. apply Qeq_trans with (Py.fl x).
  - apply fl_proper. rewrite Hmod. apply shift_180_back.
  - apply (fl_exact _ k (-44)); [lia | lia | reflexivity].
Qed.

End Binary64.

(** C5 fails as stated: [normalize 180] is -180, which is not above
    -180. *)
Lemma normalize_180_not_above_minus_180 :
  (normalize 180 == -180
   /\ ~ (-180 < normalize 180 /\ normalize 180 <= 180))%Q.
Proof.
  split; [vm_compute; reflexivity |].
  intros [H _]. vm_compute in H. discriminate H.
Qed.

(** The upper end is reached: -180 - 2^-45 is the binary64 value just
    below -180; adding 180 gives -2^-45, whose remainder plus 360
    rounds to 360. *)
Remark normalize_reaches_180 :
  (Py.fl (- (6333186975989761 # 35184372088832))
   == - (6333186975989761 # 35184372088832)
   /\ normalize (- (6333186975989761 # 35184372088832)) == 180)%Q.
Proof. split; vm_compute; reflexivity. Qed.

(** C8 fails as stated: at the binary64 value just below -180 the
    normalized angle is 180, and normalizing 180 gives -180. *)
Lemma normalize_twice_at_180 :
  (normalize (- (6333186975989761 # 35184372088832)) == 180
   /\ normalize (normalize (- (6333186975989761 # 35184372088832))) == -180
   /\ ~ normalize (normalize (- (6333186975989761 # 35184372088832)))
        == normalize (- (6333186975989761 # 35184372088832)))%Q.
Proof.
  split; [vm_compute; reflexivity |].
  split; [vm_compute; reflexivity |].
  intros H. vm_compute in H. discriminate H.
Qed.

(** C8 at 190 degrees, which normalizes to -170. *)
Lemma normalize_idempotent_witness :
  (normalize 190 < 180 /\ normalize (normalize 190) == normalize 190)%Q.
Proof.
  split; [vm_compute; reflexivity |].
  apply normalize_idempotent. vm_compute. reflexivity.
Defined.

(** X2 at 45 degrees. *)
Lemma normalize_fixed_witness :
  ((- 3166593487994880 <= 791648371998720 < 3166593487994880)%Z
   /\ normalize (inject_Z 791648371998720 * 2 ^ (-44))
      == inject_Z 791648371998720 * 2 ^ (-44))%Q.
Proof.
  split; [lia |]. apply normalize_fixed. lia.
Defined.

(** Off the grid the angle moves: the binary64 value nearest to 0.1
    normalizes to a value [205 * 2 ^ -55] below itself. *)
Remark normalize_tenth_rounds :
  (normalize (Py.fl (1 # 10)) < Py.fl (1 # 10)
   /\ Py.fl (1 # 10) - normalize (Py.fl (1 # 10)) == 205 * 2 ^ (-55))%Q.
Proof. split; vm_compute; reflexivity. Qed.
